(** * tuvix-bot: a shallow embedding of [index.js]

    The bot relays GitHub pull-request webhook events to Slack.  The
    embedding follows [index.js] function by function:

    - JavaScript strings are [string]s; every [ascii] stands for one
      code unit, so the model covers the strings whose code units are
      below 256 (on these [toLowerCase] is the Unicode mapping);
    - a handler is a function on a [world], the record of everything the
      process can observe or change: the lines given to [app.log] and to
      [console.log], the Slack API calls issued so far, the activations
      of [sendSlackMessage] (its parameter [msg] and its local array
      [errors], which the callbacks share), and the continuations of the
      [async] callbacks that wait for a Slack response;
    - a JavaScript number is the rational it stands for, and a division
      is the binary64 division: the exact quotient rounded to 53 bits
      ([Number.div]);
    - the JavaScript job queue is the function [run]: a schedule says
      which waiting continuation is resumed at each turn, so that a
      statement about every schedule covers every order in which the
      workspaces can answer. *)

From Stdlib Require Import ZArith QArith Qround Qabs Ascii String DecimalString Lia.
From Stdlib Require SpecFloat.
From stdpp Require Import base list strings.

Local Open Scope string_scope.
Local Open Scope list_scope.
Local Open Scope Z_scope.

(** ** JavaScript string primitives *)

Module JS.

(** [str.length] *)
Definition length (str : string) : Z := Z.of_nat (String.length str).

(** [str.indexOf(c)] for a one-character search string [c]: the index of
    the first occurrence, or [-1]. *)
Fixpoint indexOf_from (i : Z) (str : string) (c : ascii) : Z :=
  match str with
  | EmptyString => -1
  | String a rest => if Ascii.eqb a c then i else indexOf_from (i + 1) rest c
  end.

Definition indexOf (str : string) (c : ascii) : Z := indexOf_from 0 str c.

(** [str.substring(start, end)]: both indices are clamped to
    [0 .. str.length] and swapped when [start > end]. *)
Definition clamp (len i : Z) : Z := Z.min (Z.max i 0) len.

Definition substring (str : string) (istart iend : Z) : string :=
  let len := length str in
  let a := clamp len istart in
  let b := clamp len iend in
  let from := Z.min a b in
  let to := Z.max a b in
  String.substring (Z.to_nat from) (Z.to_nat (to - from)) str.

(** [str.toLowerCase()] on code units below 256: the letters [A]-[Z]
    and the Latin-1 capitals U+00C0-U+00DE (without the multiplication
    sign U+00D7) move up by 32, everything else stays. *)
Definition lower_unit (c : ascii) : ascii :=
  let n := N_of_ascii c in
  if ((65 <=? n) && (n <=? 90)
      || (192 <=? n) && (n <=? 222) && negb (n =? 215))%N
  then ascii_of_N (n + 32) else c.

Fixpoint toLowerCase (str : string) : string :=
  match str with
  | EmptyString => EmptyString
  | String a rest => String (lower_unit a) (toLowerCase rest)
  end.

(** A template literal [`${n}`] of a non-negative integer (below 10^21,
    where JavaScript changes to the exponent notation). *)
Definition of_number (n : N) : string := NilZero.string_of_uint (N.to_uint n).

(** The line feed of ['\n'] and the double quote. *)
Definition LF : ascii := ascii_of_N 10.
Definition quote : string := String (ascii_of_N 34) EmptyString.

(** [array.findIndex(p)]: the index of the first element that satisfies
    [p], or [-1]. *)
Fixpoint findIndex_from {A : Type} (i : Z) (l : list A) (p : A -> bool) : Z :=
  match l with
  | [] => -1
  | a :: rest => if p a then i else findIndex_from (i + 1) rest p
  end.

Definition findIndex {A : Type} (l : list A) (p : A -> bool) : Z :=
  findIndex_from 0 l p.

End JS.

(** ** Text helpers of [index.js] *)

(** [trunc(str, len)] *)
Definition trunc (str : string) (len : Z) : string :=
  if JS.length str >? len then JS.substring str 0 len +:+ "..." else str.

(** [cutAtFirstNewline(str)] *)
Definition cutAtFirstNewline (str : string) : string :=
  if JS.indexOf str JS.LF >=? 0
  then JS.substring str 0 (JS.indexOf str JS.LF) +:+ "..."
  else str.


(** ** Numbers

    A JavaScript number is a binary64 number: zero, or [m * 2^e] with
    [m] of at most 53 bits.  By IEEE 754 the quotient of two numbers is
    the binary64 number nearest to the exact quotient, the one with the
    even [m] when two are equally near.  [div n d] is that quotient as a
    rational, for an integer [n] and a positive integer [d] that binary64
    holds exactly (both below 2^53 in size); the quotients of such
    integers are far from the subnormal numbers and from the infinities. *)

Module Number.

(** The integer nearest to [n / d], the even one of two equally near;
    [0 <= n] and [0 < d]. *)
Definition nearest_even (n d : Z) : Z :=
  let q := n / d in
  let r := n mod d in
  if 2 * r <? d then q
  else if d <? 2 * r then q + 1
  else if Z.even q then q else q + 1.

(** The [e] with [2^e <= n / d < 2^(e+1)]; [0 < n] and [0 < d]. *)
Definition exponent (n d : Z) : Z :=
  let a := Z.log2 n in
  let b := Z.log2 d in
  if d * 2 ^ a <=? n * 2 ^ b then a - b else a - b - 1.

(** [n / d]: the exact quotient rounded to 53 bits, that is to a
    multiple of [2^-k] with [k = 52 - e]. *)
Definition div (n d : Z) : Q :=
  if n =? 0 then 0%Q
  else
    let k := 52 - exponent (Z.abs n) d in
    Qred (if 0 <=? k
          then (Z.sgn n * nearest_even (Z.abs n * 2 ^ k) d) # (Z.to_pos (2 ^ k))
          else (Z.sgn n * nearest_even (Z.abs n) (d * 2 ^ (- k)) * 2 ^ (- k)) # 1).

End Number.

(** ** [new Date(str)]

    The time value of a date, in milliseconds since the epoch, for the
    ECMAScript date-time string format with a time zone,
    [YYYY-MM-DDTHH:mm:ss], an optional [.sss], then [Z] or [+HH:mm] or
    [-HH:mm].  The day and time arithmetic is that of ECMAScript
    ([DayFromYear], [MakeDay], [MakeTime], [MakeDate]).  [parse] answers
    [None] on every other string; those are left out of the model (the
    shorter forms of the format, the strings for which the engine yields
    [NaN], and the strings it reads with a parser of its own). *)

Module Date.

Record fields := {
  year : Z; month : Z; day : Z;
  hours : Z; minutes : Z; seconds : Z; millis : Z;
  offset : Z (* minutes east of UTC *)
}.

Definition digit (c : ascii) : option Z :=
  let n := Z.of_N (N_of_ascii c) in
  if (48 <=? n) && (n <=? 57) then Some (n - 48) else None.

(** Read exactly [k] decimal digits. *)
Fixpoint digits (k : nat) (acc : Z) (s : string) : option (Z * string) :=
  match k with
  | O => Some (acc, s)
  | S k' =>
      match s with
      | String c rest =>
          match digit c with
          | Some d => digits k' (acc * 10 + d) rest
          | None => None
          end
      | EmptyString => None
      end
  end.

Definition expect (c : ascii) (s : string) : option string :=
  match s with
  | String a rest => if Ascii.eqb a c then Some rest else None
  | EmptyString => None
  end.

Definition InLeapYear (y : Z) : bool :=
  ((y mod 4 =? 0) && negb (y mod 100 =? 0)) || (y mod 400 =? 0).

Definition DaysInMonth (y m : Z) : Z :=
  if m =? 2 then (if InLeapYear y then 29 else 28)
  else if (m =? 4) || (m =? 6) || (m =? 9) || (m =? 11) then 30 else 31.

Definition DayFromYear (y : Z) : Z :=
  365 * (y - 1970) + (y - 1969) / 4 - (y - 1901) / 100 + (y - 1601) / 400.

(** Days before the first of month [m] (1 to 12) within year [y]. *)
Fixpoint days_before (y : Z) (m : nat) : Z :=
  match m with
  | O => 0
  | S m' => days_before y m' + DaysInMonth y (Z.of_nat m)
  end.

Definition MakeDay (y m d : Z) : Z :=
  DayFromYear y + days_before y (Z.to_nat (m - 1)) + (d - 1).

Definition MakeTime (h mi s ms : Z) : Z :=
  h * 3600000 + mi * 60000 + s * 1000 + ms.

Definition MakeDate (dayno time : Z) : Z := dayno * 86400000 + time.

(** The fraction: [.sss] or nothing. *)
Definition fraction (s : string) : option (Z * string) :=
  match s with
  | String "." rest => digits 3 0 rest
  | _ => Some (0, s)
  end.

(** The zone: [Z], [+HH:mm] or [-HH:mm], and then the end of the string. *)
Definition zone (s : string) : option Z :=
  match s with
  | String "Z" EmptyString => Some 0
  | String sign rest =>
      '(h, rest) ← digits 2 0 rest;
      rest ← expect ":" rest;
      '(m, rest) ← digits 2 0 rest;
      if bool_decide (rest = EmptyString) && (h <=? 23) && (m <=? 59)
      then (if Ascii.eqb sign "+" then Some (h * 60 + m)
            else if Ascii.eqb sign "-" then Some (- (h * 60 + m))
            else None)
      else None
  | EmptyString => None
  end.

Definition parse_fields (s : string) : option fields :=
  '(y, s) ← digits 4 0 s;
  s ← expect "-" s;
  '(mo, s) ← digits 2 0 s;
  s ← expect "-" s;
  '(d, s) ← digits 2 0 s;
  s ← expect "T" s;
  '(h, s) ← digits 2 0 s;
  s ← expect ":" s;
  '(mi, s) ← digits 2 0 s;
  s ← expect ":" s;
  '(sec, s) ← digits 2 0 s;
  '(ms, s) ← fraction s;
  off ← zone s;
  if (1 <=? mo) && (mo <=? 12) && (1 <=? d) && (d <=? DaysInMonth y mo)
     && (h <=? 23) && (mi <=? 59) && (sec <=? 59)
  then Some {| year := y; month := mo; day := d; hours := h; minutes := mi;
               seconds := sec; millis := ms; offset := off |}
  else None.

(** Whole seconds since the epoch, and the time value in milliseconds. *)
Definition epoch_seconds (f : fields) : Z :=
  MakeDay (year f) (month f) (day f) * 86400
  + hours f * 3600 + minutes f * 60 + seconds f - offset f * 60.

Definition time_value (f : fields) : Z :=
  MakeDate (MakeDay (year f) (month f) (day f))
           (MakeTime (hours f) (minutes f) (seconds f) (millis f))
  - offset f * 60000.

Definition parse (s : string) : option Z := time_value <$> parse_fields s.

(** [new Date(v)] for a field that holds a string or [null]; [null]
    converts to the number 0, the epoch itself. *)
Definition new (v : option string) : option Z :=
  match v with
  | Some s => parse s
  | None => Some 0
  end.

(** [new Date(v) / 1000]: the time value, an integer that binary64
    holds exactly, divided by 1000 as numbers are divided, and nothing
    else. *)
Definition seconds_of (v : option string) : option Q :=
  (fun ms => Number.div ms 1000) <$> new v.

End Date.

(** ** The webhook payload

    The fields the handlers read.  [merged_by], [merged_at] and
    [closed_at] are [null] on a pull request that is not merged or not
    closed; [label] and [review] are present on the events that carry
    them; the [body] of a review is [null] when the review has no
    comment. *)

Module User.
Record t := { login : string; avatar_url : string; html_url : string }.
End User.

Module Label.
Record t := { name : string }.
End Label.

Module Repository.
Record t := { full_name : string; html_url : string }.
End Repository.

Module PullRequest.
Record t := {
  html_url : string;
  title : string;
  number : N;
  created_at : string;
  closed_at : option string;
  merged_at : option string;
  merged_by : option User.t;
  merged : bool;
  base_ref : string;        (* [base.ref] *)
  user : User.t;
  labels : list Label.t
}.
End PullRequest.

Module Review.
Record t := {
  state : string;
  body : option string;
  user : User.t;
  submitted_at : string
}.
End Review.

Module Payload.
Record t := {
  pull_request : PullRequest.t;
  repository : Repository.t;
  sender : User.t;
  label : option Label.t;
  review : option Review.t
}.
End Payload.

Module Context.
(** [name] is the event name with its action, as [app.on] matches it. *)
Record t := { name : string; payload : Payload.t }.
End Context.

(** ** The Slack message *)

Module Attachment.
(** The attachment object is filled in assignment by assignment, so a
    property that was not assigned yet is [None]. *)
Record t := {
  color : option string;
  author_name : option string;
  author_icon : option string;
  author_link : option string;
  title : option string;
  title_link : option string;
  footer : option string;
  footer_icon : option string;
  ts : option Q;
  text : option string
}.

Definition set_author (name icon link : string) (a : t) : t :=
  {| color := color a; author_name := Some name; author_icon := Some icon;
     author_link := Some link; title := title a; title_link := title_link a;
     footer := footer a; footer_icon := footer_icon a; ts := ts a;
     text := text a |}.
Definition set_title (v : string) (a : t) : t :=
  {| color := color a; author_name := author_name a;
     author_icon := author_icon a; author_link := author_link a;
     title := Some v; title_link := title_link a; footer := footer a;
     footer_icon := footer_icon a; ts := ts a; text := text a |}.
Definition set_color (v : string) (a : t) : t :=
  {| color := Some v; author_name := author_name a;
     author_icon := author_icon a; author_link := author_link a;
     title := title a; title_link := title_link a; footer := footer a;
     footer_icon := footer_icon a; ts := ts a; text := text a |}.
Definition set_ts (v : option Q) (a : t) : t :=
  {| color := color a; author_name := author_name a;
     author_icon := author_icon a; author_link := author_link a;
     title := title a; title_link := title_link a; footer := footer a;
     footer_icon := footer_icon a; ts := v; text := text a |}.
End Attachment.

Module Block.
Record t := { type : string; text_type : string; text_text : string }.
End Block.

Module Message.
Record t := {
  text : option string;
  blocks : option (list Block.t);
  attachments : list Attachment.t;
  channel : option string
}.

(** [{ ...msg, channel: id }] *)
Definition with_channel (msg : t) (id : string) : t :=
  {| text := text msg; blocks := blocks msg;
     attachments := attachments msg; channel := Some id |}.
End Message.

Module Channel.
Record t := { id : string; name_normalized : string }.
End Channel.

(** ** Configuration and the Slack Web API *)

(** [process.env], after the two start-up checks. *)
Record process_env := {
  SLACK_TOKENS : list string;   (* the parsed JSON array *)
  env_PR_LABEL : string
}.

Record WebClient := { token : string }.

(** How the promise of an API call settles: resolved with [ok] set,
    resolved with [ok] unset and an [error] text, or rejected with a
    value whose string form is [reason]. *)
Inductive response (A : Type) : Type :=
| Ok (value : A)
| NotOk (error : string)
| Rejected (reason : string).
Arguments Ok {A} value.
Arguments NotOk {A} error.
Arguments Rejected {A} reason.

(** The answers of the Slack workspaces, one workspace per token. *)
Record slack_api := {
  users_conversations : string -> response (list Channel.t);
  chat_postMessage : string -> Message.t -> response unit
}.

Inductive api_call :=
| UsersConversations (client : WebClient)
| ChatPostMessage (client : WebClient) (message : Message.t).

(** What [errors.push] stores and [console.log] prints: an [Error]
    object with its message, or a string. *)
Inductive logged :=
| ErrorObject (message : string)
| ErrorText (s : string).

(** A suspended [async] callback: the arrow function over [client]
    waiting at [await getChannels(client)], or the one over [channel]
    waiting at [await client.chat.postMessage(message)].  [errors] is the
    activation whose array the closure captured. *)
Inductive task :=
| AwaitChannels (errors : nat) (msg : Message.t) (client : WebClient)
| AwaitPost (errors : nat) (client : WebClient) (channel : Channel.t)
            (message : Message.t).

(** One call of [sendSlackMessage]: the parameter and the local array. *)
Record activation := {
  act_msg : Message.t;
  act_errors : list logged
}.

Record world := {
  app_log : list string;          (* lines given to [app.log] *)
  console : list logged;          (* values given to [console.log] *)
  api_calls : list api_call;      (* Slack calls, in the order issued *)
  activations : list activation;  (* one per call of [sendSlackMessage] *)
  pending : list task             (* callbacks waiting for a response *)
}.

Definition initial_world : world :=
  {| app_log := []; console := []; api_calls := []; activations := []; pending := [] |}.

Inductive completion :=
| Normal
| Throw (exception : string).

Definition set_app_log (f : list string -> list string) (w : world) : world :=
  {| app_log := f (app_log w); console := console w; api_calls := api_calls w;
     activations := activations w; pending := pending w |}.
Definition set_console (f : list logged -> list logged) (w : world) : world :=
  {| app_log := app_log w; console := f (console w); api_calls := api_calls w;
     activations := activations w; pending := pending w |}.
Definition set_api_calls (f : list api_call -> list api_call) (w : world) : world :=
  {| app_log := app_log w; console := console w; api_calls := f (api_calls w);
     activations := activations w; pending := pending w |}.
Definition set_activations (f : list activation -> list activation) (w : world) : world :=
  {| app_log := app_log w; console := console w; api_calls := api_calls w;
     activations := f (activations w); pending := pending w |}.
Definition set_pending (f : list task -> list task) (w : world) : world :=
  {| app_log := app_log w; console := console w; api_calls := api_calls w;
     activations := activations w; pending := f (pending w) |}.

(** [app.log(line)], [console.log(v)], [errors.push(v)], an API call and
    an [await]. *)
Definition app_log_line (line : string) : world -> world :=
  set_app_log (fun l => l ++ [line]).
Definition console_log (v : logged) : world -> world :=
  set_console (fun l => l ++ [v]).
Definition errors_push (errors : nat) (v : logged) : world -> world :=
  set_activations
    (alter (fun a => {| act_msg := act_msg a; act_errors := act_errors a ++ [v] |})
           errors).
Definition call (c : api_call) : world -> world :=
  set_api_calls (fun l => l ++ [c]).
Definition await (t : task) : world -> world :=
  set_pending (fun l => l ++ [t]).

(** [array.forEach(f)] *)
Definition forEach {A : Type} (l : list A) (f : A -> world -> world) (w : world) : world :=
  fold_left (fun w a => f a w) l w.

(** ** The program *)

Section Program.

Context (env : process_env) (slack : slack_api).

(** [const PR_LABEL = process.env.PR_LABEL.toLowerCase()] *)
Definition PR_LABEL : string := JS.toLowerCase (env_PR_LABEL env).

(** [const slackClients = JSON.parse(...).map((token) => new WebClient(token))] *)
Definition slackClients : list WebClient :=
  map (fun token => {| token := token |}) (SLACK_TOKENS env).

Definition GitHub_Mark : string :=
  "https://github.githubassets.com/images/modules/logos_page/GitHub-Mark.png".

(** [isTargeted(context)] *)
Definition isTargeted (context : Context.t) : bool :=
  if JS.findIndex
       (PullRequest.labels (Payload.pull_request (Context.payload context)))
       (fun label => String.eqb (Label.name label) PR_LABEL) <? 0
  then false
  else true.

(** [getChannels(client)]: how the promise it returns settles, with the
    channels or with the [Error] it throws. *)
Definition getChannels (client : WebClient) : logged + list Channel.t :=
  match users_conversations slack (token client) with
  | Ok channels => inr channels
  | NotOk error =>
      inl (ErrorObject ("Could not retrieve list of channels: "
                        +:+ "Error: " +:+ error))
  | Rejected reason =>
      inl (ErrorObject ("Could not retrieve list of channels: " +:+ reason))
  end.

(** The arrow function over [channel], up to its [await]. *)
Definition post_to_channel (errors : nat) (msg : Message.t) (client : WebClient)
           (channel : Channel.t) (w : world) : world :=
  let message := Message.with_channel msg (Channel.id channel) in
  await (AwaitPost errors client channel message)
        (call (ChatPostMessage client message) w).

(** The arrow function over [client], up to its [await]. *)
Definition list_channels (errors : nat) (msg : Message.t) (client : WebClient)
           (w : world) : world :=
  await (AwaitChannels errors msg client) (call (UsersConversations client) w).

(** [sendSlackMessage(msg)], up to its return.  The two [forEach] loops
    start [async] callbacks and do not wait for them. *)
Definition sendSlackMessage (msg : Message.t) (w : world) : world :=
  let errors := length (activations w) in
  let w := set_activations
             (fun l => l ++ [{| act_msg := msg; act_errors := [] |}]) w in
  let w := forEach slackClients (list_channels errors msg) w in
  let seen := default [] (act_errors <$> activations w !! errors) in
  if (Z.of_nat (length seen) >? 0)
  then forEach seen console_log w
  else w.

(** A callback goes on when the promise it waits for has settled. *)
Definition resume (t : task) (w : world) : world :=
  match t with
  | AwaitChannels errors msg client =>
      match getChannels client with
      | inr channels => forEach channels (post_to_channel errors msg client) w
      | inl err => errors_push errors err w
      end
  | AwaitPost errors client channel message =>
      match chat_postMessage slack (token client) message with
      | Ok _ => w
      | NotOk error =>
          errors_push errors
            (ErrorText ("Unable to send message to slack channel "
                        +:+ Channel.name_normalized channel +:+ ": "
                        +:+ "Error: " +:+ error)) w
      | Rejected reason =>
          errors_push errors
            (ErrorText ("Unable to send message to slack channel "
                        +:+ Channel.name_normalized channel +:+ ": "
                        +:+ reason)) w
      end
  end.

(** One turn of the job queue: the waiting callback number [i] goes on. *)
Definition step (i : nat) (w : world) : world :=
  match pending w !! i with
  | Some t => resume t (set_pending (delete i) w)
  | None => w
  end.

Definition run (schedule : list nat) (w : world) : world :=
  fold_left (fun w i => step i w) schedule w.

Definition TypeError : completion := Throw "TypeError".

(** [handleLabeled(app, context)] *)
Definition handleLabeled (context : Context.t) (w : world) : world * completion :=
  let payload := Context.payload context in
  match Payload.label payload with
  | None => (w, TypeError)
  | Some label =>
      let labelName := Label.name label in
      if negb (String.eqb (JS.toLowerCase labelName) PR_LABEL) then (w, Normal)
      else
        let w := app_log_line ("New " +:+ JS.quote +:+ PR_LABEL +:+ JS.quote
                             +:+ " labeled PR detected!") w in
        let repo := Repository.full_name (Payload.repository payload) in
        let repoURL := Repository.html_url (Payload.repository payload) in
        let pr := Payload.pull_request payload in
        let user := PullRequest.user pr in
        let sender := Payload.sender payload in
        (sendSlackMessage
           {| Message.text := None;
              Message.blocks := Some [
                {| Block.type := "section";
                   Block.text_type := "mrkdwn";
                   Block.text_text :=
                     User.login sender +:+ " is requesting a review in <"
                     +:+ repoURL +:+ "|" +:+ repo +:+ ">" |} ];
              Message.attachments := [
                {| Attachment.color := Some "#FFC107";
                   Attachment.author_name := Some (User.login user);
                   Attachment.author_icon := Some (User.avatar_url user);
                   Attachment.author_link := Some (User.html_url user);
                   Attachment.title :=
                     Some ("#" +:+ JS.of_number (PullRequest.number pr) +:+ " - "
                           +:+ PullRequest.title pr);
                   Attachment.title_link := Some (PullRequest.html_url pr);
                   Attachment.footer := Some repo;
                   Attachment.footer_icon := Some GitHub_Mark;
                   Attachment.ts := Date.seconds_of (Some (PullRequest.created_at pr));
                   Attachment.text := None |} ];
              Message.channel := None |} w,
         Normal)
  end.

(** [handleClosed(app, context)] *)
Definition handleClosed (context : Context.t) (w : world) : world * completion :=
  if negb (isTargeted context) then (w, Normal)
  else
    let payload := Context.payload context in
    let pr := Payload.pull_request payload in
    let prNumber := PullRequest.number pr in
    let repo := Repository.full_name (Payload.repository payload) in
    let sender := Payload.sender payload in
    let attachment :=
      {| Attachment.color := Some "#607D8B";
         Attachment.author_name := None;
         Attachment.author_icon := None;
         Attachment.author_link := None;
         Attachment.title := None;
         Attachment.title_link := Some (PullRequest.html_url pr);
         Attachment.footer := Some repo;
         Attachment.footer_icon := Some GitHub_Mark;
         Attachment.ts := None;
         Attachment.text := None |} in
    if PullRequest.merged pr then
      match PullRequest.merged_by pr with
      | None => (w, TypeError)
      | Some mergedBy =>
          let w := app_log_line
                     (JS.quote +:+ PR_LABEL +:+ JS.quote +:+ " labeled PR #"
                      +:+ JS.of_number prNumber +:+ " in " +:+ repo
                      +:+ " was merged by " +:+ User.login mergedBy +:+ "!") w in
          let attachment :=
            Attachment.set_author (User.login mergedBy) (User.avatar_url mergedBy)
                                  (User.html_url mergedBy) attachment in
          let attachment :=
            Attachment.set_title
              ("Merged #" +:+ JS.of_number prNumber +:+ " into "
               +:+ PullRequest.base_ref pr) attachment in
          let attachment :=
            Attachment.set_ts (Date.seconds_of (PullRequest.merged_at pr)) attachment in
          (sendSlackMessage
             {| Message.text := Some EmptyString; Message.blocks := None;
                Message.attachments := [attachment]; Message.channel := None |} w,
           Normal)
      end
    else
      let w := app_log_line
                 (JS.quote +:+ PR_LABEL +:+ JS.quote +:+ " labeled PR #"
                  +:+ JS.of_number prNumber +:+ " in " +:+ repo
                  +:+ " was closed by " +:+ User.login sender +:+ ".") w in
      let attachment :=
        Attachment.set_author (User.login sender) (User.avatar_url sender)
                              (User.html_url sender) attachment in
      let attachment :=
        Attachment.set_title ("Closed #" +:+ JS.of_number prNumber) attachment in
      let attachment :=
        Attachment.set_ts (Date.seconds_of (PullRequest.closed_at pr)) attachment in
      (sendSlackMessage
         {| Message.text := Some EmptyString; Message.blocks := None;
            Message.attachments := [attachment]; Message.channel := None |} w,
       Normal).

(** [handleReopened(app, context)] *)
Definition handleReopened (context : Context.t) (w : world) : world * completion :=
  if negb (isTargeted context) then (w, Normal)
  else
    let payload := Context.payload context in
    let pr := Payload.pull_request payload in
    let repo := Repository.full_name (Payload.repository payload) in
    let sender := Payload.sender payload in
    (sendSlackMessage
       {| Message.text := Some EmptyString;
          Message.blocks := None;
          Message.attachments := [
            {| Attachment.color := Some "#FFC107";
               Attachment.author_name := Some (User.login sender);
               Attachment.author_icon := Some (User.avatar_url sender);
               Attachment.author_link := Some (User.html_url sender);
               Attachment.title :=
                 Some ("Reopened #" +:+ JS.of_number (PullRequest.number pr)
                       +:+ " - " +:+ PullRequest.title pr);
               Attachment.title_link := Some (PullRequest.html_url pr);
               Attachment.footer := Some repo;
               Attachment.footer_icon := Some GitHub_Mark;
               Attachment.ts := Date.seconds_of (Some (PullRequest.created_at pr));
               Attachment.text := None |} ];
          Message.channel := None |} w,
     Normal).

(** [handleReviewSubmitted(app, context)].  The attachment is built
    before the log line is written; with a [body] that is [null],
    [cutAtFirstNewline] throws on [str.indexOf]. *)
Definition handleReviewSubmitted (context : Context.t) (w : world)
  : world * completion :=
  if negb (isTargeted context) then (w, Normal)
  else
    let payload := Context.payload context in
    match Payload.review payload with
    | None => (w, TypeError)
    | Some review =>
        if negb (String.eqb (Review.state review) "approved")
           && negb (String.eqb (Review.state review) "changes_requested")
        then (w, Normal)
        else
          let reviewState := Review.state review in
          let reviewUser := Review.user review in
          let repo := Repository.full_name (Payload.repository payload) in
          let pr := Payload.pull_request payload in
          let prNumber := PullRequest.number pr in
          match Review.body review with
          | None => (w, TypeError)
          | Some reviewBody =>
              let attachment :=
                {| Attachment.color := None;
                   Attachment.author_name := Some (User.login reviewUser);
                   Attachment.author_icon := Some (User.avatar_url reviewUser);
                   Attachment.author_link := Some (User.html_url reviewUser);
                   Attachment.title := None;
                   Attachment.title_link := Some (PullRequest.html_url pr);
                   Attachment.footer := Some repo;
                   Attachment.footer_icon := Some GitHub_Mark;
                   Attachment.ts := Date.seconds_of (Some (Review.submitted_at review));
                   Attachment.text :=
                     Some (trunc (cutAtFirstNewline reviewBody) 60) |} in
              let '(w, attachment) :=
                if String.eqb reviewState "approved" then
                  (app_log_line
                     (JS.quote +:+ PR_LABEL +:+ JS.quote +:+ " labeled PR #"
                      +:+ JS.of_number prNumber +:+ " in " +:+ repo
                      +:+ " was approved by " +:+ User.login reviewUser +:+ "!") w,
                   Attachment.set_title
                     ("Approved #" +:+ JS.of_number prNumber +:+ " - "
                      +:+ PullRequest.title pr)
                     (Attachment.set_color "#388E3C" attachment))
                else if String.eqb reviewState "changes_requested" then
                  (app_log_line
                     ("Changes were requested on " +:+ JS.quote +:+ PR_LABEL
                      +:+ JS.quote +:+ " labeled PR #" +:+ JS.of_number prNumber
                      +:+ " in " +:+ repo +:+ " by " +:+ User.login reviewUser) w,
                   Attachment.set_title
                     ("Changes requested on #" +:+ JS.of_number prNumber +:+ " - "
                      +:+ PullRequest.title pr)
                     (Attachment.set_color "#D33A49" attachment))
                else (w, attachment) in
              (sendSlackMessage
                 {| Message.text := Some EmptyString; Message.blocks := None;
                    Message.attachments := [attachment]; Message.channel := None |} w,
               Normal)
          end
    end.

(** [module.exports]: the handlers registered with [app.on], and the
    delivery of an event to the handler registered under its name. *)
Definition handlers : list (string * (Context.t -> world -> world * completion)) :=
  [ ("pull_request.labeled", handleLabeled);
    ("pull_request.closed", handleClosed);
    ("pull_request.reopened", handleReopened);
    ("pull_request_review.submitted", handleReviewSubmitted) ].

Fixpoint find_handler (name : string)
         (registered : list (string * (Context.t -> world -> world * completion)))
  : option (Context.t -> world -> world * completion) :=
  match registered with
  | [] => None
  | (event, handler) :: rest =>
      if String.eqb event name then Some handler else find_handler name rest
  end.

Definition receive (context : Context.t) (w : world) : world * completion :=
  match find_handler (Context.name context) handlers with
  | Some handler => handler context w
  | None => (w, Normal)
  end.

End Program.

(** ** Vocabulary of the specification *)

(** Two strings are equal up to case. *)
Definition equal_ignoring_case (a b : string) : Prop :=
  JS.toLowerCase a = JS.toLowerCase b.

(** The Notification Messages handed to the fan-out notifier so far, and
    the errors recorded by the activation [errors]. *)
Definition sent (w : world) : list Message.t := act_msg <$> activations w.

Definition recorded (errors : nat) (w : world) : list logged :=
  default [] (act_errors <$> activations w !! errors).

(** Delivery calls: the [chat.postMessage] calls among the API calls. *)
Definition is_post (c : api_call) : bool :=
  match c with
  | ChatPostMessage _ _ => true
  | UsersConversations _ => false
  end.

Definition posts (w : world) : list api_call := filter is_post (api_calls w).

(** No character of the string is a line feed. *)
Fixpoint no_newline (s : string) : Prop :=
  match s with
  | EmptyString => True
  | String a rest => a <> JS.LF /\ no_newline rest
  end.

(** The labels of the pull request of an event, and the event with
    another label set. *)
Definition labels_of (context : Context.t) : list Label.t :=
  PullRequest.labels (Payload.pull_request (Context.payload context)).

Definition with_labels (labels : list Label.t) (context : Context.t) : Context.t :=
  let payload := Context.payload context in
  let pr := Payload.pull_request payload in
  {| Context.name := Context.name context;
     Context.payload :=
       {| Payload.pull_request :=
            {| PullRequest.html_url := PullRequest.html_url pr;
               PullRequest.title := PullRequest.title pr;
               PullRequest.number := PullRequest.number pr;
               PullRequest.created_at := PullRequest.created_at pr;
               PullRequest.closed_at := PullRequest.closed_at pr;
               PullRequest.merged_at := PullRequest.merged_at pr;
               PullRequest.merged_by := PullRequest.merged_by pr;
               PullRequest.merged := PullRequest.merged pr;
               PullRequest.base_ref := PullRequest.base_ref pr;
               PullRequest.user := PullRequest.user pr;
               PullRequest.labels := labels |};
          Payload.repository := Payload.repository payload;
          Payload.sender := Payload.sender payload;
          Payload.label := Payload.label payload;
          Payload.review := Payload.review payload |} |}.

(** The pull request carries a label whose name is the Target Label up
    to case. *)
Definition carries_target_label (env : process_env) (context : Context.t) : Prop :=
  exists label, label ∈ labels_of context
                /\ equal_ignoring_case (Label.name label) (env_PR_LABEL env).

(** The event makes its handler hand one Notification Message to the
    notifier. *)
Definition produces_message (env : process_env) (context : Context.t) (w : world)
  : Prop :=
  exists msg, sent (receive env context w).1 = sent w ++ [msg].

(** A message of the shape [{ text: '', attachments: [attachment] }]. *)
Definition attachment_message (attachment : Attachment.t) : Message.t :=
  {| Message.text := Some EmptyString; Message.blocks := None;
     Message.attachments := [attachment]; Message.channel := None |}.

(** The three events that are filtered by the labels of the pull request. *)
Definition label_filtered_event (name : string) : Prop :=
  name = "pull_request.closed" \/ name = "pull_request.reopened"
  \/ name = "pull_request_review.submitted".

(** ** Vocabulary for timestamps *)

(** The Gregorian calendar, written down on its own: leap years, the
    lengths of the months, the dates that exist and the day after a
    date. *)
Definition gregorian_leap (y : Z) : bool :=
  (y mod 4 =? 0) && (negb (y mod 100 =? 0) || (y mod 400 =? 0)).

Definition month_length (y m : Z) : Z :=
  nth (Z.to_nat (m - 1))
      [31; if gregorian_leap y then 29 else 28; 31; 30; 31; 30; 31; 31; 30; 31; 30; 31]
      0.

Definition valid_date (y m d : Z) : Prop :=
  1 <= m <= 12 /\ 1 <= d <= month_length y m.

Definition next_day (y m d : Z) : Z * Z * Z :=
  if d <? month_length y m then (y, m, d + 1)
  else if m <? 12 then (y, m + 1, 1)
  else (y + 1, 1, 1).

(** The fields of a date-time that can be written in the format. *)
Definition well_formed_fields (f : Date.fields) : Prop :=
  0 <= Date.year f <= 9999
  /\ valid_date (Date.year f) (Date.month f) (Date.day f)
  /\ 0 <= Date.hours f <= 23
  /\ 0 <= Date.minutes f <= 59
  /\ 0 <= Date.seconds f <= 59
  /\ 0 <= Date.millis f <= 999
  /\ -1439 <= Date.offset f <= 1439.

(** Writing a date-time in the format: [k] decimal digits, the zone,
    and the whole string, with or without the fraction. *)
Definition digit_char (d : Z) : ascii := ascii_of_N (Z.to_N (48 + d)).

Fixpoint pad (k : nat) (n : Z) : string :=
  match k with
  | O => EmptyString
  | S k' =>
      String (digit_char (n / 10 ^ Z.of_nat k')) (pad k' (n mod 10 ^ Z.of_nat k'))
  end.

Definition zone_string (off : Z) : string :=
  if off =? 0 then String "Z"%char EmptyString
  else String (if 0 <? off then "+"%char else "-"%char)
              (pad 2 (Z.abs off / 60) +:+ ":" +:+ pad 2 (Z.abs off mod 60)).

Definition format (fraction : bool) (f : Date.fields) : string :=
  pad 4 (Date.year f) +:+ "-" +:+ pad 2 (Date.month f) +:+ "-" +:+ pad 2 (Date.day f)
  +:+ "T" +:+ pad 2 (Date.hours f) +:+ ":" +:+ pad 2 (Date.minutes f) +:+ ":"
  +:+ pad 2 (Date.seconds f)
  +:+ (if fraction then "." +:+ pad 3 (Date.millis f) else EmptyString)
  +:+ zone_string (Date.offset f).

(** The timestamp an event supplies for its message: the time of the
    merge or of the closing for a closed event, the time of the review
    for a review-submitted event, and the time the pull request was
    created for the others. *)
Definition event_timestamp (context : Context.t) : option string :=
  let payload := Context.payload context in
  let pr := Payload.pull_request payload in
  if String.eqb "pull_request.closed" (Context.name context)
  then (if PullRequest.merged pr then PullRequest.merged_at pr
        else PullRequest.closed_at pr)
  else if String.eqb "pull_request_review.submitted" (Context.name context)
       then Review.submitted_at <$> Payload.review payload
       else Some (PullRequest.created_at pr).

(** The binary64 division of the Standard Library, [SpecFloat.SFdiv],
    on two integers, with its result as a rational; for comparison with
    [Number.div]. *)
Definition binary64_of_int (n : Z) : SpecFloat.spec_float :=
  SpecFloat.binary_normalize 53 1024 n 0 false.

Definition binary64_value (x : SpecFloat.spec_float) : option Q :=
  match x with
  | SpecFloat.S754_zero _ => Some 0%Q
  | SpecFloat.S754_finite s m e =>
      let v := if s then Z.neg m else Z.pos m in
      Some (Qred (if 0 <=? e then (v * 2 ^ e) # 1 else v # (Z.to_pos (2 ^ (- e)))))
  | _ => None
  end.

Definition binary64_quotient (n d : Z) : option Q :=
  binary64_value (SpecFloat.SFdiv 53 1024 (binary64_of_int n) (binary64_of_int d)).

(** Time values to compare on: whole seconds, fractions that binary64
    holds and fractions that it does not, times before the epoch, and the
    ends of the range of [Date]. *)
Definition sample_time_values : list Z :=
  [0; 1; 500; 999; 1000; 1001; 1500; 2500; -1; -999; -3600000;
   1704067200000; 1704067200001; 1704067200125; 1704067200375;
   1704067200500; 1704067200999; 1709296496123;
   -62167219200000; 253402300799999; 8640000000000000; -8640000000000000].

(** [count] time values a millisecond apart, from [start]; and the time
    values to compare on besides the samples: the seconds around the
    epoch, around the start of 2024 and before the end of 9999. *)
Fixpoint milliseconds_from (start : Z) (count : nat) : list Z :=
  match count with
  | O => []
  | S count' => start :: milliseconds_from (start + 1) count'
  end.

Definition compared_time_values : list Z :=
  sample_time_values ++ milliseconds_from (-1000) 2000
  ++ milliseconds_from 1704067199000 2000
  ++ milliseconds_from 253402300798000 2000.

(** ** What a waiting callback still has to do

    The calls a callback will issue and the errors it will record once
    the job queue reaches it, read off the answers of the workspaces.
    They give the invariant of the job queue: what has happened so far
    together with what the waiting callbacks still have to do is the same
    at every turn. *)

Section Outstanding.

Context (slack : slack_api).

(** The error a post to [channel] records, if it records one. *)
Definition post_failure (client : WebClient) (channel : Channel.t)
           (message : Message.t) : option logged :=
  match chat_postMessage slack (token client) message with
  | Ok _ => None
  | NotOk error =>
      Some (ErrorText ("Unable to send message to slack channel "
                       +:+ Channel.name_normalized channel +:+ ": "
                       +:+ "Error: " +:+ error))
  | Rejected reason =>
      Some (ErrorText ("Unable to send message to slack channel "
                       +:+ Channel.name_normalized channel +:+ ": "
                       +:+ reason))
  end.

Definition post_call (msg : Message.t) (client : WebClient) (ch : Channel.t)
  : api_call :=
  ChatPostMessage client (Message.with_channel msg (Channel.id ch)).

(** The posts due in the workspace of [client], and the errors due. *)
Definition posts_due (msg : Message.t) (client : WebClient) : list api_call :=
  match getChannels slack client with
  | inr channels => post_call msg client <$> channels
  | inl _ => []
  end.

Definition errors_due (msg : Message.t) (client : WebClient) : list logged :=
  match getChannels slack client with
  | inr channels =>
      omap (fun ch => post_failure client ch
                        (Message.with_channel msg (Channel.id ch))) channels
  | inl err => [err]
  end.

Definition outstanding_calls (t : task) : list api_call :=
  match t with
  | AwaitChannels _ msg client => posts_due msg client
  | AwaitPost _ _ _ _ => []
  end.

Definition outstanding_errors (errors : nat) (t : task) : list logged :=
  match t with
  | AwaitChannels e msg client =>
      if decide (e = errors) then errors_due msg client else []
  | AwaitPost e client ch message =>
      if decide (e = errors) then option_list (post_failure client ch message)
      else []
  end.

(** The number of turns the job queue needs for a waiting callback and
    the callbacks it starts. *)
Definition turns (t : task) : nat :=
  match t with
  | AwaitChannels _ _ client =>
      match getChannels slack client with
      | inr channels => S (length channels)
      | inl _ => 1
      end
  | AwaitPost _ _ _ _ => 1
  end.

Definition turns_left (w : world) : nat := sum_list_with turns (pending w).

(** The activation a waiting callback writes to. *)
Definition task_errors (t : task) : nat :=
  match t with
  | AwaitChannels e _ _ => e
  | AwaitPost e _ _ _ => e
  end.

End Outstanding.

(** Every waiting callback writes to an activation that exists. *)
Definition well_formed (w : world) : Prop :=
  Forall (fun t => (task_errors t < length (activations w))%nat) (pending w).

(** ** Sample events, configuration and workspaces *)

Module Sample.

Definition alice : User.t :=
  {| User.login := "alice"; User.avatar_url := "https://avatars.example/alice";
     User.html_url := "https://github.com/alice" |}.

Definition bob : User.t :=
  {| User.login := "bob"; User.avatar_url := "https://avatars.example/bob";
     User.html_url := "https://github.com/bob" |}.

Definition repo : Repository.t :=
  {| Repository.full_name := "acme/widgets";
     Repository.html_url := "https://github.com/acme/widgets" |}.

(** A pull request with the given labels, merged by bob or closed
    without a merge. *)
Definition pr (labels : list string) (merged : bool) : PullRequest.t :=
  {| PullRequest.html_url := "https://github.com/acme/widgets/pull/7";
     PullRequest.title := "Add sprockets";
     PullRequest.number := 7;
     PullRequest.created_at := "2024-01-01T00:00:00.000Z";
     PullRequest.closed_at := Some "2024-01-02T10:20:30Z";
     PullRequest.merged_at := if merged then Some "2024-01-02T10:20:30Z" else None;
     PullRequest.merged_by := if merged then Some bob else None;
     PullRequest.merged := merged;
     PullRequest.base_ref := "main";
     PullRequest.user := alice;
     PullRequest.labels := (fun n => {| Label.name := n |}) <$> labels |}.

Definition review (state body : string) : Review.t :=
  {| Review.state := state; Review.body := Some body; Review.user := bob;
     Review.submitted_at := "2024-01-03T08:00:00Z" |}.

(** A review without a comment, as GitHub sends it: [body] is [null]. *)
Definition review_without_comment (state : string) : Review.t :=
  {| Review.state := state; Review.body := None; Review.user := bob;
     Review.submitted_at := "2024-01-03T08:00:00Z" |}.

Definition event (name : string) (labels : list string) (merged : bool)
           (label : option string) (review : option Review.t) : Context.t :=
  {| Context.name := name;
     Context.payload :=
       {| Payload.pull_request := pr labels merged;
          Payload.repository := repo;
          Payload.sender := alice;
          Payload.label := (fun n => {| Label.name := n |}) <$> label;
          Payload.review := review |} |}.

(** Two workspaces, and the target label written with a capital. *)
Definition env : process_env :=
  {| SLACK_TOKENS := ["xoxb-first"; "xoxb-second"]; env_PR_LABEL := "Tuvix" |}.

Definition general : Channel.t :=
  {| Channel.id := "C01"; Channel.name_normalized := "general" |}.
Definition reviews : Channel.t :=
  {| Channel.id := "C02"; Channel.name_normalized := "reviews" |}.

(** The listing of the first workspace fails; the second has two
    channels, and the post to [reviews] fails. *)
Definition slack : slack_api :=
  {| users_conversations := fun token =>
       if String.eqb token "xoxb-second" then Ok [general; reviews]
       else NotOk "invalid_auth";
     chat_postMessage := fun token message =>
       if String.eqb token "xoxb-second"
          && bool_decide (Message.channel message = Some "C01")
       then Ok tt
       else NotOk "channel_not_found" |}.

Definition first : WebClient := {| token := "xoxb-first" |}.
Definition second : WebClient := {| token := "xoxb-second" |}.

Definition hello : Message.t :=
  {| Message.text := Some "hello"; Message.blocks := None;
     Message.attachments := []; Message.channel := None |}.

(** A body of 70 characters and its first 60. *)
Definition seventy : string :=
  "0123456789012345678901234567890123456789012345678901234567890123456789".
Definition sixty : string :=
  "012345678901234567890123456789012345678901234567890123456789".

(** A first line of 59 characters. *)
Definition fifty_nine : string :=
  "01234567890123456789012345678901234567890123456789012345678".

End Sample.

(** ** Start-up

    The two checks at the top of [index.js], up to the definition of
    [PR_LABEL].  A variable of [process.env] is a string or is missing;
    [!v] holds for a missing variable and for the empty string. *)

Inductive startup :=
| Exit (code : Z) (printed : list string)
| Started (label : string).

Definition not_set (v : option string) : bool :=
  match v with
  | None => true
  | Some s => String.eqb s EmptyString
  end.

Definition start_up (env_SLACK_TOKENS env_label : option string) : startup :=
  if not_set env_SLACK_TOKENS
  then Exit 1 ["Missing SLACK_TOKENS environment variable!"]
  else if not_set env_label
       then Exit 1 ["Missing PR_LABEL environment variable!"]
       else Started (JS.toLowerCase (default EmptyString env_label)).

(** ** More vocabulary *)

(** The carriage return, and a row of [n] dots. *)
Definition CR : ascii := ascii_of_N 13.

Fixpoint dots (n : nat) : string :=
  match n with
  | O => EmptyString
  | S n' => String "." (dots n')
  end.

(** The number of channels the workspace of a client lists (none when
    the listing fails), and whether everything in a workspace succeeds
    for a message. *)
Definition channels_listed (slack : slack_api) (client : WebClient) : nat :=
  match users_conversations slack (token client) with
  | Ok channels => length channels
  | _ => 0%nat
  end.

Definition all_delivered (slack : slack_api) (msg : Message.t) (client : WebClient)
  : Prop :=
  exists channels,
    users_conversations slack (token client) = Ok channels
    /\ forall channel, channel ∈ channels ->
         chat_postMessage slack (token client)
                          (Message.with_channel msg (Channel.id channel)) = Ok tt.

(** An attachment with every property but [ts] and [text] assigned. *)
Definition filled_in (a : Attachment.t) : Prop :=
  is_Some (Attachment.color a) /\ is_Some (Attachment.author_name a)
  /\ is_Some (Attachment.author_icon a) /\ is_Some (Attachment.author_link a)
  /\ is_Some (Attachment.title a) /\ is_Some (Attachment.title_link a)
  /\ is_Some (Attachment.footer a) /\ is_Some (Attachment.footer_icon a).

(** * Properties *)

(** ** Strings *)

#[local] Arguments String.append !s1 s2 : simpl nomatch.

Section Strings.

Implicit Types (s p r : string) (c : ascii).

Lemma string_length_app s r :
  String.length (s +:+ r) = (String.length s + String.length r)%nat.
Proof. induction s as [|a s IH]; simpl; [reflexivity | now rewrite IH]. Qed.

Lemma string_app_nil_r s : s +:+ EmptyString = s.
Proof. induction s as [|a s IH]; simpl; [reflexivity | now rewrite IH]. Qed.

Lemma prefix_of_app p r :
  String.substring 0 (String.length p) (p +:+ r) = p.
Proof.
  induction p as [|a p IH]; simpl.
  - now destruct r.
  - now rewrite IH.
Qed.

Lemma substring_length s n :
  String.length (String.substring 0 n s) = Nat.min n (String.length s).
Proof.
  revert n; induction s as [|a s IH]; intros [|n]; simpl; try reflexivity.
  now rewrite IH.
Qed.

(** The string splits into its first [n] characters and the rest. *)
Lemma substring_split s n :
  exists rest, s = String.substring 0 n s +:+ rest.
Proof.
  revert n; induction s as [|a s IH]; intros [|n]; simpl.
  - now exists EmptyString.
  - now exists EmptyString.
  - now exists (String a s).
  - destruct (IH n) as [rest Hrest]. exists rest. now rewrite <- Hrest.
Qed.

(** [JS.substring] from 0 to an index inside the string. *)
Lemma JS_substring_0 s n :
  0 <= n <= JS.length s ->
  JS.substring s 0 n = String.substring 0 (Z.to_nat n) s.
Proof.
  intros Hn. unfold JS.substring, JS.clamp.
  replace (Z.min (Z.min (Z.max 0 0) (JS.length s))
                 (Z.min (Z.max n 0) (JS.length s))) with 0 by lia.
  replace (Z.max (Z.min (Z.max 0 0) (JS.length s))
                 (Z.min (Z.max n 0) (JS.length s)) - 0) with n by lia.
  reflexivity.
Qed.

Lemma indexOf_from_no_newline s i : no_newline s -> JS.indexOf_from i s JS.LF = -1.
Proof.
  revert i; induction s as [|a s IH]; intros i Hs; simpl; [reflexivity|].
  destruct Hs as [Ha Hs].
  destruct (Ascii.eqb_spec a JS.LF) as [->|_]; [contradiction | now apply IH].
Qed.

Lemma indexOf_from_first p r i :
  no_newline p ->
  JS.indexOf_from i (p +:+ String JS.LF r) JS.LF = i + Z.of_nat (String.length p).
Proof.
  revert i; induction p as [|a p IH]; intros i Hp; simpl.
  - lia.
  - destruct Hp as [Ha Hp].
    destruct (Ascii.eqb_spec a JS.LF) as [->|_]; [contradiction|].
    rewrite IH by assumption. lia.
Qed.

(** Either the string has no line feed and [indexOf] answers [-1], or it
    splits at its first line feed and [indexOf] answers the length of
    what comes before. *)
Lemma indexOf_from_cases s i :
  (no_newline s /\ JS.indexOf_from i s JS.LF = -1)
  \/ (exists p r, s = p +:+ String JS.LF r /\ no_newline p
                  /\ JS.indexOf_from i s JS.LF = i + Z.of_nat (String.length p)).
Proof.
  revert i; induction s as [|a s IH]; intros i; simpl.
  - left. split; [exact I | reflexivity].
  - destruct (Ascii.eqb_spec a JS.LF) as [->|Ha].
    + right. exists EmptyString, s. simpl. repeat split. lia.
    + destruct (IH (i + 1)) as [[Hs Hi] | (p & r & -> & Hp & Hi)].
      * left. now repeat split.
      * right. exists (String a p), r. simpl. repeat split; try assumption. lia.
Qed.

Lemma cut_at_newline p r :
  no_newline p -> cutAtFirstNewline (p +:+ String JS.LF r) = p +:+ "...".
Proof.
  intros Hp. unfold cutAtFirstNewline, JS.indexOf.
  rewrite indexOf_from_first by assumption. rewrite Z.add_0_l.
  destruct (Z.geb_spec (Z.of_nat (String.length p)) 0) as [_|]; [|lia].
  rewrite JS_substring_0.
  - rewrite Nat2Z.id. now rewrite prefix_of_app.
  - unfold JS.length. rewrite string_length_app. simpl String.length. lia.
Qed.

Lemma cut_without_newline s : no_newline s -> cutAtFirstNewline s = s.
Proof.
  intros Hs. unfold cutAtFirstNewline, JS.indexOf.
  now rewrite indexOf_from_no_newline.
Qed.

Lemma trunc_long s len :
  0 <= len < JS.length s ->
  trunc s len = String.substring 0 (Z.to_nat len) s +:+ "...".
Proof.
  intros Hlen. unfold trunc.
  destruct (Z.gtb_spec (JS.length s) len) as [_|]; [|lia].
  rewrite JS_substring_0 by lia. reflexivity.
Qed.

Lemma trunc_short s len : JS.length s <= len -> trunc s len = s.
Proof.
  intros Hlen. unfold trunc.
  destruct (Z.gtb_spec (JS.length s) len); [lia | reflexivity].
Qed.

Lemma trunc_length s len :
  0 <= len -> (String.length (trunc s len) <= Z.to_nat len + 3)%nat.
Proof.
  intros Hlen. destruct (Z_lt_le_dec len (JS.length s)) as [Hlt|Hle].
  - rewrite trunc_long by lia. rewrite string_length_app, substring_length.
    simpl. lia.
  - rewrite trunc_short by assumption. unfold JS.length in Hle. lia.
Qed.

End Strings.

(** ** The fan-out notifier, up to its return *)

Section Notifier.

Context (env : process_env) (slack : slack_api).

(** Starting the callbacks over the clients issues one listing call
    per client, leaves one callback waiting per client, and touches
    nothing else. *)
Lemma list_channels_all errors msg clients w :
  forEach clients (list_channels errors msg) w =
  {| app_log := app_log w;
     console := console w;
     api_calls := api_calls w ++ (UsersConversations <$> clients);
     activations := activations w;
     pending := pending w ++ (AwaitChannels errors msg <$> clients) |}.
Proof.
  revert w; induction clients as [|c clients IH]; intros w.
  - destruct w; simpl. now rewrite !app_nil_r.
  - change (forEach (c :: clients) (list_channels errors msg) w)
      with (forEach clients (list_channels errors msg) (list_channels errors msg c w)).
    rewrite IH. simpl. now rewrite <- !app_assoc.
Qed.

(** The same for the callbacks over the channels of one workspace. *)
Lemma post_to_channel_all errors msg client channels w :
  forEach channels (post_to_channel errors msg client) w =
  {| app_log := app_log w;
     console := console w;
     api_calls :=
       api_calls w
       ++ ((fun ch => ChatPostMessage client (Message.with_channel msg (Channel.id ch)))
             <$> channels);
     activations := activations w;
     pending :=
       pending w
       ++ ((fun ch => AwaitPost errors client ch
                                (Message.with_channel msg (Channel.id ch)))
             <$> channels) |}.
Proof.
  revert w; induction channels as [|c channels IH]; intros w.
  - destruct w; simpl. now rewrite !app_nil_r.
  - change (forEach (c :: channels) (post_to_channel errors msg client) w)
      with (forEach channels (post_to_channel errors msg client)
                    (post_to_channel errors msg client c w)).
    rewrite IH. simpl. now rewrite <- !app_assoc.
Qed.

(** [sendSlackMessage] reads [errors.length] before any callback has
    gone on: the array is still empty, and nothing is printed. *)
Lemma sendSlackMessage_returns msg w :
  sendSlackMessage env msg w =
  {| app_log := app_log w;
     console := console w;
     api_calls := api_calls w ++ (UsersConversations <$> slackClients env);
     activations := activations w ++ [{| act_msg := msg; act_errors := [] |}];
     pending :=
       pending w
       ++ (AwaitChannels (length (activations w)) msg <$> slackClients env) |}.
Proof.
  unfold sendSlackMessage. rewrite list_channels_all. simpl.
  rewrite lookup_app_r by lia. rewrite Nat.sub_diag. reflexivity.
Qed.

End Notifier.

(** ** The job queue *)

Section JobQueue.

Context (env : process_env) (slack : slack_api).

Implicit Types (w : world) (t : task) (schedule : list nat).

Lemma recorded_push errors e v w :
  recorded errors (errors_push e v w) =
  if decide (e = errors /\ (e < length (activations w))%nat)
  then recorded errors w ++ [v] else recorded errors w.
Proof.
  unfold recorded, errors_push. simpl. rewrite list_lookup_alter.
  destruct (decide (e = errors)) as [->|Hne].
  - destruct (activations w !! errors) as [a|] eqn:Ha; simpl.
    + apply lookup_lt_Some in Ha. rewrite decide_True by (split; [reflexivity | lia]).
      reflexivity.
    + apply lookup_ge_None in Ha. rewrite decide_False by lia. reflexivity.
  - rewrite decide_False by tauto. reflexivity.
Qed.

Lemma sent_push e v w : sent (errors_push e v w) = sent w.
Proof.
  unfold sent, errors_push. simpl. apply list_eq. intros i.
  rewrite !list_lookup_fmap, list_lookup_alter.
  destruct (decide (e = i)) as [->|]; [|reflexivity].
  now destruct (activations w !! i).
Qed.

(** The callback chosen by a turn splits the queue around it. *)
Lemma chosen_splits (l : list task) i t :
  l !! i = Some t -> exists l1 l2, l = l1 ++ t :: l2 /\ delete i l = l1 ++ l2.
Proof.
  intros Hi. exists (take i l), (drop (S i) l). split.
  - symmetry. now apply take_drop_middle.
  - apply delete_take_drop.
Qed.

(** *** What no turn changes *)

Lemma resume_console t w : console (resume slack t w) = console w.
Proof.
  destruct t as [e msg c | e c ch m]; simpl.
  - destruct (getChannels slack c); [reflexivity|].
    now rewrite post_to_channel_all.
  - now destruct (chat_postMessage slack (token c) m).
Qed.

Lemma resume_sent t w : sent (resume slack t w) = sent w.
Proof.
  destruct t as [e msg c | e c ch m]; simpl.
  - destruct (getChannels slack c); [apply sent_push|].
    now rewrite post_to_channel_all.
  - destruct (chat_postMessage slack (token c) m);
      [reflexivity | apply sent_push | apply sent_push].
Qed.

Lemma step_console i w : console (step slack i w) = console w.
Proof.
  unfold step. destruct (pending w !! i); [|reflexivity].
  now rewrite resume_console.
Qed.

Lemma step_sent i w : sent (step slack i w) = sent w.
Proof.
  unfold step. destruct (pending w !! i); [|reflexivity].
  now rewrite resume_sent.
Qed.

Lemma run_console schedule w : console (run slack schedule w) = console w.
Proof.
  revert w; induction schedule as [|i schedule IH]; intros w; [reflexivity|].
  simpl. fold (run slack schedule (step slack i w)). rewrite IH. apply step_console.
Qed.

Lemma run_sent schedule w : sent (run slack schedule w) = sent w.
Proof.
  revert w; induction schedule as [|i schedule IH]; intros w; [reflexivity|].
  simpl. fold (run slack schedule (step slack i w)). rewrite IH. apply step_sent.
Qed.

(** *** What the turns add up to *)

Lemma posts_outstanding_calls e c msg (channels : list Channel.t) :
  ((fun ch => AwaitPost e c ch (Message.with_channel msg (Channel.id ch)))
     <$> channels) ≫= outstanding_calls slack = [].
Proof. induction channels as [|ch channels IH]; [reflexivity | exact IH]. Qed.

Lemma posts_outstanding_errors errors e c msg (channels : list Channel.t) :
  ((fun ch => AwaitPost e c ch (Message.with_channel msg (Channel.id ch)))
     <$> channels) ≫= outstanding_errors slack errors =
  if decide (e = errors)
  then omap (fun ch => post_failure slack c ch
                         (Message.with_channel msg (Channel.id ch))) channels
  else [].
Proof.
  induction channels as [|ch channels IH].
  - now destruct (decide (e = errors)).
  - rewrite fmap_cons, bind_cons, IH. simpl.
    destruct (decide (e = errors)); [|reflexivity].
    now destruct (post_failure slack c ch _).
Qed.

(** The calls issued together with the calls still due stay the same. *)
Lemma step_calls i w :
  api_calls (step slack i w) ++ (pending (step slack i w) ≫= outstanding_calls slack)
  ≡ₚ api_calls w ++ (pending w ≫= outstanding_calls slack).
Proof.
  unfold step. destruct (pending w !! i) as [t|] eqn:Hi; [|reflexivity].
  destruct (chosen_splits _ _ _ Hi) as (l1 & l2 & Hl & Hdel).
  assert (Hgoal : forall calls rest,
             outstanding_calls slack t = calls -> rest ≫= outstanding_calls slack = [] ->
             (api_calls w ++ calls)
               ++ ((delete i (pending w) ++ rest) ≫= outstanding_calls slack)
             ≡ₚ api_calls w ++ (pending w ≫= outstanding_calls slack)).
  { intros calls rest Ht Hrest. rewrite Hdel, Hl, !bind_app, bind_cons, Hrest, Ht.
    rewrite app_nil_r, <- !app_assoc. apply Permutation_app_head.
    rewrite !app_assoc. apply Permutation_app_tail, Permutation_app_comm. }
  destruct t as [e msg c | e c ch m]; simpl in *.
  - unfold posts_due in Hgoal.
    destruct (getChannels slack c) as [err|channels] eqn:Hc.
    + simpl. specialize (Hgoal [] [] eq_refl eq_refl).
      now rewrite !app_nil_r in Hgoal.
    + rewrite post_to_channel_all. simpl.
      apply Hgoal; [reflexivity | apply posts_outstanding_calls].
  - specialize (Hgoal [] [] eq_refl eq_refl). rewrite !app_nil_r in Hgoal.
    now destruct (chat_postMessage slack (token c) m).
Qed.

(** The errors recorded together with the errors still due stay the
    same. *)
Lemma step_errors errors i w :
  well_formed w ->
  recorded errors (step slack i w)
    ++ (pending (step slack i w) ≫= outstanding_errors slack errors)
  ≡ₚ recorded errors w ++ (pending w ≫= outstanding_errors slack errors).
Proof.
  intros Hwf. unfold step. destruct (pending w !! i) as [t|] eqn:Hi; [|reflexivity].
  destruct (chosen_splits _ _ _ Hi) as (l1 & l2 & Hl & Hdel).
  assert (Ht : (task_errors t < length (activations w))%nat).
  { unfold well_formed in Hwf. rewrite Forall_forall in Hwf. apply Hwf.
    apply list_elem_of_lookup. eauto. }
  assert (Hgoal : forall now due rest,
             outstanding_errors slack errors t = now ++ due ->
             rest ≫= outstanding_errors slack errors = due ->
             (recorded errors w ++ now)
               ++ ((delete i (pending w) ++ rest) ≫= outstanding_errors slack errors)
             ≡ₚ recorded errors w ++ (pending w ≫= outstanding_errors slack errors)).
  { intros now due rest Hnow Hrest.
    rewrite Hdel, Hl, !bind_app, bind_cons, Hrest, Hnow.
    rewrite <- !app_assoc. apply Permutation_app_head.
    rewrite (Permutation_app_comm (l2 ≫= _) due).
    rewrite (app_assoc now), (Permutation_app_comm now).
    now rewrite <- !app_assoc. }
  assert (Hpush : forall e v (w' : world),
             activations w' = activations w -> (e < length (activations w))%nat ->
             recorded errors (errors_push e v w') =
             recorded errors w ++ (if decide (e = errors) then [v] else [])).
  { intros e v w' Hw' He. rewrite recorded_push, Hw'. unfold recorded. rewrite Hw'.
    destruct (decide (e = errors)) as [->|Hne].
    - now rewrite decide_True by tauto.
    - rewrite decide_False by tauto. now rewrite app_nil_r. }
  destruct t as [e msg c | e c ch m]; simpl in *.
  - unfold errors_due in Hgoal.
    destruct (getChannels slack c) as [err|channels] eqn:Hc.
    + rewrite Hpush by (reflexivity || assumption). simpl.
      specialize (Hgoal (if decide (e = errors) then [err] else []) [] []).
      rewrite !app_nil_r in Hgoal. apply Hgoal; [|reflexivity].
      now destruct (decide (e = errors)).
    + rewrite post_to_channel_all. simpl.
      change (recorded errors _) with (recorded errors w).
      specialize (Hgoal [] (if decide (e = errors)
                            then omap (fun ch => post_failure slack c ch
                                         (Message.with_channel msg (Channel.id ch)))
                                      channels
                            else [])).
      rewrite !app_nil_r in Hgoal. apply Hgoal; [reflexivity|].
      apply posts_outstanding_errors.
  - unfold post_failure in Hgoal.
    destruct (chat_postMessage slack (token c) m) as [u|error|reason].
    + change (recorded errors _) with (recorded errors w).
      specialize (Hgoal [] [] []). rewrite !app_nil_r in Hgoal.
      apply Hgoal; [|reflexivity]. now destruct (decide (e = errors)).
    + rewrite Hpush by (reflexivity || assumption). simpl.
      specialize (Hgoal (if decide (e = errors)
                         then [ErrorText ("Unable to send message to slack channel "
                                 +:+ Channel.name_normalized ch +:+ ": "
                                 +:+ "Error: " +:+ error)]
                         else []) [] []).
      rewrite !app_nil_r in Hgoal. apply Hgoal; [|reflexivity].
      now destruct (decide (e = errors)).
    + rewrite Hpush by (reflexivity || assumption). simpl.
      specialize (Hgoal (if decide (e = errors)
                         then [ErrorText ("Unable to send message to slack channel "
                                 +:+ Channel.name_normalized ch +:+ ": "
                                 +:+ reason)]
                         else []) [] []).
      rewrite !app_nil_r in Hgoal. apply Hgoal; [|reflexivity].
      now destruct (decide (e = errors)).
Qed.

Lemma step_well_formed i w : well_formed w -> well_formed (step slack i w).
Proof.
  unfold well_formed, step. intros Hwf.
  destruct (pending w !! i) as [t|] eqn:Hi; [|assumption].
  destruct (chosen_splits _ _ _ Hi) as (l1 & l2 & Hl & Hdel).
  rewrite Hl in Hwf. apply Forall_app in Hwf as [H1 Hwf].
  apply Forall_cons in Hwf as [Ht H2].
  assert (Hrest : Forall (fun t => (task_errors t < length (activations w))%nat)
                         (delete i (pending w))).
  { rewrite Hdel. now apply Forall_app. }
  destruct t as [e msg c | e c ch m]; simpl in *.
  - destruct (getChannels slack c) as [err|channels].
    + simpl. now rewrite length_alter.
    + rewrite post_to_channel_all. simpl. apply Forall_app. split; [assumption|].
      apply Forall_fmap, Forall_forall. intros ch _. exact Ht.
  - destruct (chat_postMessage slack (token c) m); simpl;
      rewrite ?length_alter; assumption.
Qed.

Lemma posts_turns e c msg (channels : list Channel.t) :
  sum_list_with (turns slack)
    ((fun ch => AwaitPost e c ch (Message.with_channel msg (Channel.id ch)))
       <$> channels) = length channels.
Proof.
  induction channels as [|ch channels IH]; [reflexivity|].
  rewrite fmap_cons. simpl. now f_equal.
Qed.

(** Every turn that finds a callback uses up one of the turns left. *)
Lemma step_turns i w t :
  pending w !! i = Some t ->
  S (turns_left slack (step slack i w)) = turns_left slack w.
Proof.
  intros Hi. unfold turns_left, step. rewrite Hi.
  destruct (chosen_splits _ _ _ Hi) as (l1 & l2 & Hl & Hdel).
  rewrite Hl, sum_list_with_app. simpl sum_list_with.
  assert (Hrest : sum_list_with (turns slack) (delete i (pending w)) =
                  (sum_list_with (turns slack) l1 + sum_list_with (turns slack) l2)%nat).
  { now rewrite Hdel, sum_list_with_app. }
  destruct t as [e msg c | e c ch m]; simpl in *.
  - destruct (getChannels slack c) as [err|channels].
    + simpl. lia.
    + rewrite post_to_channel_all. simpl.
      rewrite sum_list_with_app, posts_turns. lia.
  - destruct (chat_postMessage slack (token c) m); simpl; lia.
Qed.

Lemma turns_positive t : (1 <= turns slack t)%nat.
Proof.
  destruct t as [e msg c | e c ch m]; simpl; [|lia].
  destruct (getChannels slack c); lia.
Qed.

Lemma run_idle schedule w : pending w = [] -> run slack schedule w = w.
Proof.
  intros Hw. induction schedule as [|i schedule IH]; [reflexivity|].
  simpl. unfold step at 1. rewrite Hw. simpl. exact IH.
Qed.

(** The job queue empties: resuming the first waiting callback as many
    times as there are turns left leaves no callback waiting. *)
Lemma run_drains w :
  pending (run slack (replicate (turns_left slack w) 0%nat) w) = [].
Proof.
  remember (turns_left slack w) as n eqn:Hn.
  revert w Hn; induction n as [|n IH]; intros w Hn.
  - simpl. unfold turns_left in Hn. destruct (pending w) as [|t l]; [reflexivity|].
    simpl in Hn. pose proof (turns_positive t). lia.
  - destruct (pending w) as [|t l] eqn:Hw.
    + now rewrite run_idle.
    + simpl. fold (run slack (replicate n 0%nat) (step slack 0 w)). apply IH.
      assert (Hi : pending w !! 0%nat = Some t) by now rewrite Hw.
      apply step_turns in Hi. lia.
Qed.

Lemma run_well_formed schedule w :
  well_formed w -> well_formed (run slack schedule w).
Proof.
  revert w; induction schedule as [|i schedule IH]; intros w Hw; [assumption|].
  simpl. fold (run slack schedule (step slack i w)). now apply IH, step_well_formed.
Qed.

Lemma run_calls schedule w :
  api_calls (run slack schedule w)
    ++ (pending (run slack schedule w) ≫= outstanding_calls slack)
  ≡ₚ api_calls w ++ (pending w ≫= outstanding_calls slack).
Proof.
  revert w; induction schedule as [|i schedule IH]; intros w; [reflexivity|].
  simpl. fold (run slack schedule (step slack i w)). rewrite IH. apply step_calls.
Qed.

Lemma run_errors errors schedule w :
  well_formed w ->
  recorded errors (run slack schedule w)
    ++ (pending (run slack schedule w) ≫= outstanding_errors slack errors)
  ≡ₚ recorded errors w ++ (pending w ≫= outstanding_errors slack errors).
Proof.
  revert w; induction schedule as [|i schedule IH]; intros w Hw; [reflexivity|].
  simpl. fold (run slack schedule (step slack i w)).
  rewrite IH by now apply step_well_formed. now apply step_errors.
Qed.

(** *** One call of the notifier, run to the end *)

Lemma clients_outstanding_calls e msg (clients : list WebClient) :
  (AwaitChannels e msg <$> clients) ≫= outstanding_calls slack =
  clients ≫= posts_due slack msg.
Proof.
  induction clients as [|c clients IH]; [reflexivity|].
  now rewrite fmap_cons, !bind_cons, IH.
Qed.

Lemma clients_outstanding_errors e msg (clients : list WebClient) :
  (AwaitChannels e msg <$> clients) ≫= outstanding_errors slack e =
  clients ≫= errors_due slack msg.
Proof.
  induction clients as [|c clients IH]; [reflexivity|].
  rewrite fmap_cons, !bind_cons, IH. simpl. now rewrite decide_True.
Qed.

(** From a world where nothing waits, and once nothing waits again:
    the calls issued are the listing calls and the posts due, the
    errors recorded are the errors due, and nothing was printed. *)
Lemma fan_out_complete msg schedule w :
  pending w = [] ->
  let w' := run slack schedule (sendSlackMessage env msg w) in
  pending w' = [] ->
  api_calls w' ≡ₚ api_calls w ++ (UsersConversations <$> slackClients env)
                   ++ (slackClients env ≫= posts_due slack msg)
  /\ recorded (length (activations w)) w' ≡ₚ slackClients env ≫= errors_due slack msg
  /\ console w' = console w
  /\ sent w' = sent w ++ [msg].
Proof.
  intros Hw w' Hw'. subst w'. rewrite sendSlackMessage_returns in Hw' |- *.
  rewrite Hw in Hw' |- *. simpl app in Hw' |- *.
  set (w1 := {| app_log := app_log w; console := console w;
                api_calls := api_calls w ++ (UsersConversations <$> slackClients env);
                activations := activations w ++ [{| act_msg := msg; act_errors := [] |}];
                pending := AwaitChannels (length (activations w)) msg
                             <$> slackClients env |}) in *.
  repeat split.
  - pose proof (run_calls schedule w1) as H.
    rewrite Hw', app_nil_r in H. rewrite H. subst w1. simpl.
    rewrite clients_outstanding_calls. now rewrite <- app_assoc.
  - pose proof (run_errors (length (activations w)) schedule w1) as H.
    rewrite Hw', app_nil_r in H. rewrite H.
    + subst w1. unfold recorded. simpl. rewrite clients_outstanding_errors.
      rewrite lookup_app_r by lia. now rewrite Nat.sub_diag.
    + subst w1. unfold well_formed. simpl.
      apply Forall_fmap, Forall_forall. intros c _. simpl.
      rewrite length_app. simpl. lia.
  - now rewrite run_console.
  - rewrite run_sent. subst w1. unfold sent. simpl. now rewrite fmap_app.
Qed.

End JobQueue.


(** ** The text of a review *)

(** Decides [no_newline] on a string that is written out. *)
Ltac no_newline_holds :=
  cbn [no_newline String.append]; repeat split;
  let H := fresh in intro H; vm_compute in H; discriminate H.

Section ReviewText.

(** C3.  The review text is the body cut twice, one cut after the
    other.  First at the first line feed: when the body has one, what
    comes before it is kept and "..." is appended, and otherwise the
    body is left as it is.  Then at 60 characters: when the result of
    the first cut is longer than 60, its first 60 characters are kept
    and "..." is appended, and otherwise it is left as it is.  So
    "first line", a line feed, "second line" gives "first line...", a
    body of 70 characters without a line feed gives its first 60
    characters and "...", and a body under 60 characters without a line
    feed is unchanged. *)
Theorem review_text_two_cuts :
  (forall body : string,
      let cut := cutAtFirstNewline body in
      ((exists p r, body = p +:+ String JS.LF r /\ no_newline p /\ cut = p +:+ "...")
       \/ (no_newline body /\ cut = body))
      /\ ((exists p r, cut = p +:+ r /\ String.length p = 60%nat /\ r <> EmptyString
                       /\ trunc cut 60 = p +:+ "...")
          \/ ((String.length cut <= 60)%nat /\ trunc cut 60 = cut)))
  /\ trunc (cutAtFirstNewline ("first line" +:+ String JS.LF "second line")) 60
     = "first line..."
  /\ (forall p r : string,
         String.length p = 60%nat -> String.length r = 10%nat ->
         no_newline (p +:+ r) ->
         trunc (cutAtFirstNewline (p +:+ r)) 60 = p +:+ "...")
  /\ (forall body : string,
         (String.length body < 60)%nat -> no_newline body ->
         trunc (cutAtFirstNewline body) 60 = body).
Proof.
  split; [|split; [|split]].
  - intros body cut. split.
    + subst cut. unfold JS.indexOf.
      destruct (indexOf_from_cases body 0) as [[Hb _] | (p & r & Hb & Hp & _)].
      * right. split; [assumption | now apply cut_without_newline].
      * left. exists p, r. repeat split; try assumption.
        rewrite Hb. now apply cut_at_newline.
    + destruct (le_lt_dec (String.length cut) 60) as [Hle|Hlt].
      * right. split; [assumption|]. apply trunc_short. unfold JS.length. lia.
      * left. destruct (substring_split cut 60) as [r Hr].
        exists (String.substring 0 60 cut), r.
        assert (Hp : String.length (String.substring 0 60 cut) = 60%nat).
        { rewrite substring_length. lia. }
        repeat split; try assumption.
        -- intros ->. rewrite string_app_nil_r in Hr. rewrite <- Hr in Hp. lia.
        -- apply (trunc_long cut 60). unfold JS.length. lia.
  - reflexivity.
  - intros p r Hp Hr Hn. rewrite cut_without_newline by assumption.
    rewrite trunc_long.
    + change (Z.to_nat 60) with 60%nat. rewrite <- Hp. now rewrite prefix_of_app.
    + unfold JS.length. rewrite string_length_app. lia.
  - intros body Hlen Hn. rewrite cut_without_newline by assumption.
    apply trunc_short. unfold JS.length. lia.
Qed.

Lemma review_text_two_cuts_witness :
  trunc (cutAtFirstNewline Sample.seventy) 60 = Sample.sixty +:+ "..."
  /\ trunc (cutAtFirstNewline "looks good to me") 60 = "looks good to me".
Proof.
  destruct review_text_two_cuts as (_ & _ & Hlong & Hshort). split.
  - apply (Hlong Sample.sixty "0123456789").
    + reflexivity.
    + reflexivity.
    + no_newline_holds.
  - apply (Hshort "looks good to me").
    + simpl. lia.
    + no_newline_holds.
Defined.

End ReviewText.

(** ** Dates *)

Section Dates.

Lemma digit_bound c d : Date.digit c = Some d -> 0 <= d <= 9.
Proof.
  unfold Date.digit. intros H.
  destruct (Z.leb_spec 48 (Z.of_N (N_of_ascii c)));
    destruct (Z.leb_spec (Z.of_N (N_of_ascii c)) 57); simpl in H;
    try discriminate. injection H as <-. lia.
Qed.

(** [k] digits read behind [acc] give a number between [acc * 10^k] and
    [(acc + 1) * 10^k]. *)
Lemma digits_bound k acc s v rest :
  0 <= acc -> Date.digits k acc s = Some (v, rest) ->
  acc * 10 ^ Z.of_nat k <= v < (acc + 1) * 10 ^ Z.of_nat k.
Proof.
  revert acc s; induction k as [|k IH]; intros acc s Hacc H.
  - simpl in H. injection H as <- _. simpl. lia.
  - simpl in H. destruct s as [|c s]; [discriminate|].
    destruct (Date.digit c) as [d|] eqn:Hd; [|discriminate].
    apply digit_bound in Hd. apply IH in H; [|lia].
    rewrite Nat2Z.inj_succ, Z.pow_succ_r by lia. nia.
Qed.

Lemma fraction_bound s ms rest :
  Date.fraction s = Some (ms, rest) -> 0 <= ms < 1000.
Proof.
  unfold Date.fraction. intros H.
  assert (Hnone : Some (0, s) = Some (ms, rest) -> 0 <= ms < 1000).
  { intros [= <- _]. lia. }
  destruct s as [|c s]; [now apply Hnone|].
  destruct c as [[] [] [] [] [] [] [] []]; try now apply Hnone.
  apply digits_bound in H; lia.
Qed.

(** A date that [parse_fields] accepts has its milliseconds below 1000. *)
Lemma parse_fields_millis s f :
  Date.parse_fields s = Some f -> 0 <= Date.millis f < 1000.
Proof.
  unfold Date.parse_fields. intros H.
  repeat (first [ apply bind_Some in H as ([? ?] & ? & H)
                | apply bind_Some in H as (? & ? & H) ];
          cbv beta iota in H).
  destruct (_ && _) in H; [|discriminate].
  injection H as <-. simpl.
  match goal with E : Date.fraction _ = Some _ |- _ => apply fraction_bound in E end.
  assumption.
Qed.

(** The time value is the whole seconds times 1000 plus the
    milliseconds. *)
Lemma time_value_split f :
  Date.time_value f = Date.epoch_seconds f * 1000 + Date.millis f.
Proof. unfold Date.time_value, Date.epoch_seconds, Date.MakeDate, Date.MakeTime. lia. Qed.

End Dates.

(** ** The label filter *)

Section LabelFilter.

Context (env : process_env).

Implicit Types (context : Context.t) (w : world).

Lemma lower_unit_idempotent c : JS.lower_unit (JS.lower_unit c) = JS.lower_unit c.
Proof. destruct c as [[] [] [] [] [] [] [] []]; reflexivity. Qed.

Lemma toLowerCase_idempotent s : JS.toLowerCase (JS.toLowerCase s) = JS.toLowerCase s.
Proof.
  induction s as [|a s IH]; simpl; [reflexivity|].
  now rewrite lower_unit_idempotent, IH.
Qed.

(** A name that is the lower-cased Target Label is the Target Label up
    to case. *)
Lemma exact_is_equal_ignoring_case name :
  name = PR_LABEL env -> equal_ignoring_case name (env_PR_LABEL env).
Proof. intros ->. unfold equal_ignoring_case, PR_LABEL. apply toLowerCase_idempotent. Qed.

Lemma findIndex_from_found {A : Type} (l : list A) (p : A -> bool) i :
  0 <= i ->
  (JS.findIndex_from i l p <? 0) = false <-> exists a, a ∈ l /\ p a = true.
Proof.
  revert i; induction l as [|a l IH]; intros i Hi; simpl.
  - split; [discriminate|]. intros (a & Ha & _). inversion Ha.
  - destruct (p a) eqn:Hp.
    + split; [|intros _; apply Z.ltb_ge; lia].
      intros _. exists a. split; [left | assumption].
    + rewrite IH by lia. split.
      * intros (b & Hb & Hpb). exists b. split; [now right | assumption].
      * intros (b & Hb & Hpb). inversion Hb; subst; [congruence|]. now exists b.
Qed.

(** [isTargeted] answers [true] exactly when a label of the pull
    request is named as the lower-cased Target Label, character by
    character. *)
Lemma isTargeted_true context :
  isTargeted env context = true <->
  exists label, label ∈ labels_of context /\ Label.name label = PR_LABEL env.
Proof.
  unfold isTargeted. fold (labels_of context). unfold JS.findIndex.
  destruct (JS.findIndex_from 0 _ _ <? 0) eqn:Hfind.
  - split; [discriminate|]. intros (label & Hl & Hname).
    assert (H : (JS.findIndex_from 0 (labels_of context)
                   (fun label => String.eqb (Label.name label) (PR_LABEL env)) <? 0)
                = false).
    { apply findIndex_from_found; [lia|]. exists label. split; [assumption|].
      now apply String.eqb_eq. }
    congruence.
  - split; [|reflexivity]. intros _.
    apply findIndex_from_found in Hfind as (label & Hl & Hname); [|lia].
    exists label. split; [assumption | now apply String.eqb_eq].
Qed.

Lemma isTargeted_carries context :
  isTargeted env context = true -> carries_target_label env context.
Proof.
  intros (label & Hl & Hname)%isTargeted_true. exists label.
  split; [assumption | now apply exact_is_equal_ignoring_case].
Qed.

(** *** What the handlers hand to the notifier *)

Lemma sent_sendSlackMessage msg w : sent (sendSlackMessage env msg w) = sent w ++ [msg].
Proof. rewrite sendSlackMessage_returns. unfold sent. simpl. now rewrite fmap_app. Qed.

Lemma sent_grows msg w : sent w <> sent w ++ [msg].
Proof.
  intros H. apply (f_equal length) in H. rewrite length_app in H. simpl in H. lia.
Qed.

Lemma receive_labeled context w :
  Context.name context = "pull_request.labeled" ->
  receive env context w = handleLabeled env context w.
Proof. intros H. unfold receive. now rewrite H. Qed.

Lemma receive_closed context w :
  Context.name context = "pull_request.closed" ->
  receive env context w = handleClosed env context w.
Proof. intros H. unfold receive. now rewrite H. Qed.

Lemma receive_reopened context w :
  Context.name context = "pull_request.reopened" ->
  receive env context w = handleReopened env context w.
Proof. intros H. unfold receive. now rewrite H. Qed.

Lemma receive_review context w :
  Context.name context = "pull_request_review.submitted" ->
  receive env context w = handleReviewSubmitted env context w.
Proof. intros H. unfold receive. now rewrite H. Qed.

Lemma untargeted_is_ignored context w :
  label_filtered_event (Context.name context) ->
  isTargeted env context = false -> receive env context w = (w, Normal).
Proof.
  intros [H | [H | H]] Ht.
  - rewrite receive_closed by assumption. unfold handleClosed. now rewrite Ht.
  - rewrite receive_reopened by assumption. unfold handleReopened. now rewrite Ht.
  - rewrite receive_review by assumption. unfold handleReviewSubmitted. now rewrite Ht.
Qed.

End LabelFilter.

Section TargetedEvents.

Context (env : process_env).

Implicit Types (context : Context.t) (w : world).

Lemma handleReviewSubmitted_other_state context w review :
  Payload.review (Context.payload context) = Some review ->
  Review.state review <> "approved" ->
  Review.state review <> "changes_requested" ->
  handleReviewSubmitted env context w = (w, Normal).
Proof.
  intros Hr Ha Hc. unfold handleReviewSubmitted.
  destruct (isTargeted env context); [|reflexivity]. simpl. rewrite Hr.
  apply String.eqb_neq in Ha, Hc. now rewrite Ha, Hc.
Qed.

Lemma sample_label_named (names : list string) merged name label review n :
  n ∈ names ->
  {| Label.name := n |} ∈ labels_of (Sample.event name names merged label review).
Proof. intros Hn. unfold labels_of. simpl. now apply list_elem_of_fmap_2. Qed.

End TargetedEvents.

(** C1.  The filter of the closed, reopened and review-submitted events
    compares the names of the labels with the lower-cased Target Label
    character by character: [isTargeted] answers [true] exactly when a
    label is named so.  It does not lower-case the names, as the labeled
    handler does with the label of its event.  So with the Target Label
    "Tuvix", a closed event of a pull request labelled "Tuvix" carries
    the Target Label up to case and is not targeted: the handler leaves
    the world as it was and no message is produced; a reopened and a
    review-submitted event of that pull request are ignored in the same
    way, while the labeled event that put the label "Tuvix" on it did
    produce a message. *)
Theorem label_filter_is_case_sensitive :
  (forall (env : process_env) (context : Context.t),
      isTargeted env context = true
      <-> exists label,
            label ∈ labels_of context
            /\ Label.name label = JS.toLowerCase (env_PR_LABEL env))
  /\ (let closed := Sample.event "pull_request.closed" ["Tuvix"] true None None in
      carries_target_label Sample.env closed
      /\ isTargeted Sample.env closed = false
      /\ receive Sample.env closed initial_world = (initial_world, Normal)
      /\ ~ produces_message Sample.env closed initial_world)
  /\ (let reopened := Sample.event "pull_request.reopened" ["Tuvix"] false None None in
      carries_target_label Sample.env reopened
      /\ receive Sample.env reopened initial_world = (initial_world, Normal))
  /\ (let approved :=
        Sample.event "pull_request_review.submitted" ["Tuvix"] false None
                     (Some (Sample.review "approved" "fine")) in
      carries_target_label Sample.env approved
      /\ receive Sample.env approved initial_world = (initial_world, Normal))
  /\ produces_message Sample.env
       (Sample.event "pull_request.labeled" ["Tuvix"] false (Some "Tuvix") None)
       initial_world.
Proof.
  assert (Hcarries : forall name merged review,
             carries_target_label Sample.env
               (Sample.event name ["Tuvix"] merged None review)).
  { intros name merged review. exists {| Label.name := "Tuvix" |}.
    split; [|reflexivity]. apply sample_label_named. left. }
  split; [|split; [|split; [|split]]].
  - intros env context. apply isTargeted_true.
  - split; [apply Hcarries|]. split; [reflexivity|]. split; [reflexivity|].
    intros [msg Hmsg]. vm_compute in Hmsg. discriminate Hmsg.
  - split; [apply Hcarries | reflexivity].
  - split; [apply Hcarries | reflexivity].
  - eexists. reflexivity.
Qed.

(** ** The messages *)

Section Messages.

Context (env : process_env).

Implicit Types (context : Context.t) (w : world).

(** C6.  A labeled event produces a message exactly when the label
    named in the event is the Target Label up to case, and otherwise
    leaves the world as it was; the labels of the pull request play no
    part, whatever they are the handler does the same.  The message has
    one amber attachment and one section block that names the sender and
    the repository. *)
Theorem labeled_event context w label :
  Context.name context = "pull_request.labeled" ->
  Payload.label (Context.payload context) = Some label ->
  (produces_message env context w
   <-> equal_ignoring_case (Label.name label) (env_PR_LABEL env))
  /\ (~ equal_ignoring_case (Label.name label) (env_PR_LABEL env) ->
      receive env context w = (w, Normal))
  /\ (forall labels, receive env (with_labels labels context) w = receive env context w)
  /\ (equal_ignoring_case (Label.name label) (env_PR_LABEL env) ->
      exists attachment block,
        sent (receive env context w).1
        = sent w ++ [{| Message.text := None; Message.blocks := Some [block];
                        Message.attachments := [attachment];
                        Message.channel := None |}]
        /\ Attachment.color attachment = Some "#FFC107"
        /\ Block.type block = "section"
        /\ Block.text_text block
           = User.login (Payload.sender (Context.payload context))
             +:+ " is requesting a review in <"
             +:+ Repository.html_url (Payload.repository (Context.payload context))
             +:+ "|"
             +:+ Repository.full_name (Payload.repository (Context.payload context))
             +:+ ">").
Proof.
  intros Hname Hlabel.
  assert (Hmiss : ~ equal_ignoring_case (Label.name label) (env_PR_LABEL env) ->
                  receive env context w = (w, Normal)).
  { intros Hne. rewrite receive_labeled by assumption.
    unfold handleLabeled. rewrite Hlabel.
    destruct (String.eqb_spec (JS.toLowerCase (Label.name label)) (PR_LABEL env));
      [contradiction | reflexivity]. }
  assert (Hhit : equal_ignoring_case (Label.name label) (env_PR_LABEL env) ->
                 exists attachment block,
                   sent (receive env context w).1
                   = sent w ++ [{| Message.text := None; Message.blocks := Some [block];
                                   Message.attachments := [attachment];
                                   Message.channel := None |}]
                   /\ Attachment.color attachment = Some "#FFC107"
                   /\ Block.type block = "section"
                   /\ Block.text_text block
                      = User.login (Payload.sender (Context.payload context))
                        +:+ " is requesting a review in <"
                        +:+ Repository.html_url
                              (Payload.repository (Context.payload context))
                        +:+ "|"
                        +:+ Repository.full_name
                              (Payload.repository (Context.payload context))
                        +:+ ">").
  { intros Heq. rewrite receive_labeled by assumption.
    unfold handleLabeled. rewrite Hlabel.
    destruct (String.eqb_spec (JS.toLowerCase (Label.name label)) (PR_LABEL env));
      [|contradiction].
    simpl. eexists _, _. rewrite sent_sendSlackMessage.
    split; [reflexivity|]. repeat split. }
  split; [|split; [|split]]; try assumption.
  - split.
    + intros [msg Hmsg].
      destruct (String.eqb_spec (JS.toLowerCase (Label.name label)) (PR_LABEL env));
        [assumption|].
      rewrite Hmiss in Hmsg by assumption. now apply sent_grows in Hmsg.
    + intros Heq. destruct (Hhit Heq) as (a & b & Hsent & _).
      unfold produces_message. eexists. exact Hsent.
  - intros labels. unfold receive. simpl. rewrite Hname. reflexivity.
Qed.

(** C5.  A closed event that passes [isTargeted] produces one message
    with one attachment.  When the pull request is merged (and
    [merged_by] is set) the title is "Merged #N into <base>", the
    author name, icon and link are those of the merging user and the
    time is that of the merge; when it is not merged the title is
    "Closed #N", the author is the sender and the time is that of the
    closing.  The colour is #607D8B in both cases. *)
Theorem closed_event context w :
  Context.name context = "pull_request.closed" ->
  isTargeted env context = true ->
  let pr := Payload.pull_request (Context.payload context) in
  let sender := Payload.sender (Context.payload context) in
  (forall mergedBy,
      PullRequest.merged pr = true -> PullRequest.merged_by pr = Some mergedBy ->
      exists attachment,
        sent (receive env context w).1 = sent w ++ [attachment_message attachment]
        /\ Attachment.title attachment
           = Some ("Merged #" +:+ JS.of_number (PullRequest.number pr) +:+ " into "
                   +:+ PullRequest.base_ref pr)
        /\ Attachment.author_name attachment = Some (User.login mergedBy)
        /\ Attachment.author_icon attachment = Some (User.avatar_url mergedBy)
        /\ Attachment.author_link attachment = Some (User.html_url mergedBy)
        /\ Attachment.ts attachment = Date.seconds_of (PullRequest.merged_at pr)
        /\ Attachment.color attachment = Some "#607D8B")
  /\ (PullRequest.merged pr = false ->
      exists attachment,
        sent (receive env context w).1 = sent w ++ [attachment_message attachment]
        /\ Attachment.title attachment
           = Some ("Closed #" +:+ JS.of_number (PullRequest.number pr))
        /\ Attachment.author_name attachment = Some (User.login sender)
        /\ Attachment.author_icon attachment = Some (User.avatar_url sender)
        /\ Attachment.author_link attachment = Some (User.html_url sender)
        /\ Attachment.ts attachment = Date.seconds_of (PullRequest.closed_at pr)
        /\ Attachment.color attachment = Some "#607D8B").
Proof.
  intros Hname Ht pr sender. subst pr sender. split.
  - intros mergedBy Hm Hby. rewrite receive_closed by assumption.
    unfold handleClosed. rewrite Ht, Hm, Hby. simpl.
    eexists. rewrite sent_sendSlackMessage. split; [reflexivity|]. repeat split.
  - intros Hm. rewrite receive_closed by assumption.
    unfold handleClosed. rewrite Ht, Hm. simpl.
    eexists. rewrite sent_sendSlackMessage. split; [reflexivity|]. repeat split.
Qed.

(** C7.  A review-submitted event that passes [isTargeted]: with a
    state other than approved and changes_requested it leaves the world
    as it was.  With the state approved and a body that is a string it
    produces a message titled "Approved #N - <title>" in green, and with
    changes_requested one titled "Changes requested on #N - <title>" in
    red, in both cases with the name, icon and link of the reviewer and
    the cut body as text.  With a body that is [null], as on a review
    without comment, the handler throws for both states before it has
    written a log line or called the notifier: no message is produced. *)
Theorem review_submitted_event context w review :
  Context.name context = "pull_request_review.submitted" ->
  isTargeted env context = true ->
  Payload.review (Context.payload context) = Some review ->
  let pr := Payload.pull_request (Context.payload context) in
  let reviewer := Review.user review in
  (Review.state review <> "approved" -> Review.state review <> "changes_requested" ->
   receive env context w = (w, Normal))
  /\ (forall body,
         Review.body review = Some body ->
         (Review.state review = "approved" ->
          exists attachment,
            sent (receive env context w).1 = sent w ++ [attachment_message attachment]
            /\ Attachment.title attachment
               = Some ("Approved #" +:+ JS.of_number (PullRequest.number pr) +:+ " - "
                       +:+ PullRequest.title pr)
            /\ Attachment.color attachment = Some "#388E3C"
            /\ Attachment.author_name attachment = Some (User.login reviewer)
            /\ Attachment.author_icon attachment = Some (User.avatar_url reviewer)
            /\ Attachment.author_link attachment = Some (User.html_url reviewer)
            /\ Attachment.text attachment = Some (trunc (cutAtFirstNewline body) 60))
         /\ (Review.state review = "changes_requested" ->
             exists attachment,
               sent (receive env context w).1
               = sent w ++ [attachment_message attachment]
               /\ Attachment.title attachment
                  = Some ("Changes requested on #"
                          +:+ JS.of_number (PullRequest.number pr)
                          +:+ " - " +:+ PullRequest.title pr)
               /\ Attachment.color attachment = Some "#D33A49"
               /\ Attachment.author_name attachment = Some (User.login reviewer)
               /\ Attachment.author_icon attachment = Some (User.avatar_url reviewer)
               /\ Attachment.author_link attachment = Some (User.html_url reviewer)
               /\ Attachment.text attachment
                  = Some (trunc (cutAtFirstNewline body) 60)))
  /\ (Review.body review = None ->
      Review.state review = "approved" \/ Review.state review = "changes_requested" ->
      receive env context w = (w, TypeError)
      /\ ~ produces_message env context w).
Proof.
  intros Hname Ht Hr pr reviewer. subst pr reviewer.
  split; [|split].
  - intros Ha Hc. rewrite receive_review by assumption.
    now apply (handleReviewSubmitted_other_state env context w review).
  - intros body Hb. rewrite receive_review by assumption. split.
    + intros Hs. unfold handleReviewSubmitted. rewrite Ht, Hr, Hs, Hb. simpl.
      eexists. rewrite sent_sendSlackMessage. split; [reflexivity|]. repeat split.
    + intros Hs. unfold handleReviewSubmitted. rewrite Ht, Hr, Hs, Hb. simpl.
      eexists. rewrite sent_sendSlackMessage. split; [reflexivity|]. repeat split.
  - intros Hb Hs.
    assert (Hthrow : receive env context w = (w, TypeError)).
    { rewrite receive_review by assumption. unfold handleReviewSubmitted.
      rewrite Ht, Hr, Hb. destruct Hs as [-> | ->]; reflexivity. }
    split; [assumption|]. intros [msg Hmsg]. rewrite Hthrow in Hmsg.
    now apply sent_grows in Hmsg.
Qed.

End Messages.

Lemma labeled_event_witness :
  produces_message Sample.env
    (Sample.event "pull_request.labeled" [] false (Some "TUVIX") None) initial_world.
Proof.
  apply (labeled_event Sample.env
           (Sample.event "pull_request.labeled" [] false (Some "TUVIX") None)
           initial_world {| Label.name := "TUVIX" |}).
  - reflexivity.
  - reflexivity.
  - reflexivity.
Defined.

Lemma closed_event_witness :
  exists attachment,
    sent (receive Sample.env
            (Sample.event "pull_request.closed" ["tuvix"] true None None)
            initial_world).1
    = [attachment_message attachment]
    /\ Attachment.title attachment = Some "Merged #7 into main"
    /\ Attachment.author_name attachment = Some "bob"
    /\ Attachment.author_icon attachment = Some "https://avatars.example/bob"
    /\ Attachment.author_link attachment = Some "https://github.com/bob"
    /\ Attachment.ts attachment = Some (1704190830 # 1)
    /\ Attachment.color attachment = Some "#607D8B".
Proof.
  apply (proj1 (closed_event Sample.env
                  (Sample.event "pull_request.closed" ["tuvix"] true None None)
                  initial_world eq_refl eq_refl) Sample.bob).
  - reflexivity.
  - reflexivity.
Defined.

Lemma review_submitted_event_witness :
  (exists attachment,
      sent (receive Sample.env
              (Sample.event "pull_request_review.submitted" ["tuvix"] false None
                            (Some (Sample.review "changes_requested" "please rename")))
              initial_world).1
      = [attachment_message attachment]
      /\ Attachment.title attachment = Some "Changes requested on #7 - Add sprockets"
      /\ Attachment.color attachment = Some "#D33A49"
      /\ Attachment.author_name attachment = Some "bob"
      /\ Attachment.author_icon attachment = Some "https://avatars.example/bob"
      /\ Attachment.author_link attachment = Some "https://github.com/bob"
      /\ Attachment.text attachment = Some "please rename")
  /\ (receive Sample.env
        (Sample.event "pull_request_review.submitted" ["tuvix"] false None
                      (Some (Sample.review_without_comment "approved")))
        initial_world
      = (initial_world, TypeError)
      /\ ~ produces_message Sample.env
             (Sample.event "pull_request_review.submitted" ["tuvix"] false None
                           (Some (Sample.review_without_comment "approved")))
             initial_world).
Proof.
  split.
  - apply (proj2 (proj1 (proj2 (review_submitted_event Sample.env
                    (Sample.event "pull_request_review.submitted" ["tuvix"] false None
                       (Some (Sample.review "changes_requested" "please rename")))
                    initial_world (Sample.review "changes_requested" "please rename")
                    eq_refl eq_refl eq_refl)) "please rename" eq_refl)).
    reflexivity.
  - apply (proj2 (proj2 (review_submitted_event Sample.env
                    (Sample.event "pull_request_review.submitted" ["tuvix"] false None
                       (Some (Sample.review_without_comment "approved")))
                    initial_world (Sample.review_without_comment "approved")
                    eq_refl eq_refl eq_refl))).
    + reflexivity.
    + left. reflexivity.
Defined.

(** ** The length of the review text *)

(** C10.  The review text is at most 63 characters long.  The limit of
    60 is applied to the result of the line-feed cut with its "...": a
    first line of more than 57 characters is cut again, after the first 60
    characters of the line and its dots.  The "..." of the length cut
    comes after the 60 characters kept, which makes 63.  The empty body
    gives the empty text, and the message is sent all the same. *)
Theorem review_text_length (env : process_env) :
  (forall body : string,
      (String.length (trunc (cutAtFirstNewline body) 60) <= 63)%nat)
  /\ (forall body : string,
         (60 < String.length (cutAtFirstNewline body))%nat ->
         trunc (cutAtFirstNewline body) 60
         = String.substring 0 60 (cutAtFirstNewline body) +:+ "..."
         /\ String.length (trunc (cutAtFirstNewline body) 60) = 63%nat)
  /\ (forall p r : string,
         no_newline p -> (57 < String.length p)%nat ->
         trunc (cutAtFirstNewline (p +:+ String JS.LF r)) 60
         = String.substring 0 60 (p +:+ "...") +:+ "...")
  /\ trunc (cutAtFirstNewline EmptyString) 60 = EmptyString
  /\ (forall (context : Context.t) (w : world) (review : Review.t),
         Context.name context = "pull_request_review.submitted" ->
         isTargeted env context = true ->
         Payload.review (Context.payload context) = Some review ->
         Review.state review = "approved" \/ Review.state review = "changes_requested" ->
         Review.body review = Some EmptyString ->
         exists attachment,
           sent (receive env context w).1 = sent w ++ [attachment_message attachment]
           /\ Attachment.text attachment = Some EmptyString).
Proof.
  split; [|split; [|split; [|split]]].
  - intros body. apply (trunc_length _ 60). lia.
  - intros body Hlen. rewrite trunc_long by (unfold JS.length; lia).
    split; [reflexivity|].
    rewrite string_length_app, substring_length.
    change (String.length "...") with 3%nat. lia.
  - intros p r Hp Hlen. rewrite cut_at_newline by assumption.
    apply (trunc_long _ 60). unfold JS.length. rewrite string_length_app.
    change (String.length "...") with 3%nat. lia.
  - reflexivity.
  - intros context w review Hname Ht Hr Hs Hb.
    rewrite receive_review by assumption.
    unfold handleReviewSubmitted. rewrite Ht, Hr, Hb.
    destruct Hs as [-> | ->]; simpl; eexists; rewrite sent_sendSlackMessage;
      (split; reflexivity).
Qed.

Lemma review_text_length_witness :
  trunc (cutAtFirstNewline (Sample.fifty_nine +:+ String JS.LF "second line")) 60
  = Sample.fifty_nine +:+ "...."
  /\ exists attachment,
      sent (receive Sample.env
              (Sample.event "pull_request_review.submitted" ["tuvix"] false None
                            (Some (Sample.review "approved" EmptyString)))
              initial_world).1
      = [attachment_message attachment]
      /\ Attachment.text attachment = Some EmptyString.
Proof.
  destruct (review_text_length Sample.env) as (_ & _ & Hline & _ & Hempty). split.
  - apply (Hline Sample.fifty_nine "second line").
    + no_newline_holds.
    + simpl. lia.
  - apply (Hempty (Sample.event "pull_request_review.submitted" ["tuvix"] false None
                                (Some (Sample.review "approved" EmptyString)))
                  initial_world (Sample.review "approved" EmptyString)).
    + reflexivity.
    + reflexivity.
    + reflexivity.
    + left. reflexivity.
    + reflexivity.
Defined.


(** ** The quotient of two integers *)

Section Numbers.

(** The integer that [nearest_even] picks is within a half of the exact
    quotient, and is the quotient itself when the division is exact. *)
Lemma nearest_even_close n d :
  0 <= n -> 0 < d -> 2 * Z.abs (Number.nearest_even n d * d - n) <= d.
Proof.
  intros Hn Hd. unfold Number.nearest_even.
  pose proof (Z.div_mod n d ltac:(lia)) as Hdiv.
  pose proof (Z.mod_pos_bound n d Hd) as Hmod.
  destruct (Z.ltb_spec (2 * (n mod d)) d); [nia|].
  destruct (Z.ltb_spec d (2 * (n mod d))); [nia|].
  destruct (Z.even (n / d)); nia.
Qed.

Lemma nearest_even_exact s d : 0 < d -> Number.nearest_even (s * d) d = s.
Proof.
  intros Hd. unfold Number.nearest_even.
  rewrite Z.mod_mul, Z.div_mul by lia.
  destruct (Z.ltb_spec (2 * 0) d); [reflexivity | lia].
Qed.

(** [2^e <= n / d] for the exponent [e], said without fractions. *)
Lemma exponent_lower n d :
  0 < n -> 0 < d -> 0 <= Number.exponent n d -> d * 2 ^ Number.exponent n d <= n.
Proof.
  intros Hn Hd. unfold Number.exponent.
  pose proof (Z.log2_spec n Hn) as [Hna Hnb].
  pose proof (Z.log2_spec d Hd) as [Hda Hdb].
  pose proof (Z.log2_nonneg n) as Ha. pose proof (Z.log2_nonneg d) as Hb.
  set (a := Z.log2 n) in *. set (b := Z.log2 d) in *.
  destruct (Z.leb_spec (d * 2 ^ a) (n * 2 ^ b)) as [Hle|Hgt]; intros He.
  - replace a with ((a - b) + b) in Hle at 1 by lia.
    rewrite Z.pow_add_r in Hle by lia.
    assert (0 < 2 ^ b) by (apply Z.pow_pos_nonneg; lia). nia.
  - replace (Z.succ b) with (b + 1) in Hdb by lia.
    replace a with ((a - b - 1) + (b + 1)) in Hna by lia.
    rewrite Z.pow_add_r in Hna by lia.
    assert (0 < 2 ^ (a - b - 1)) by (apply Z.pow_pos_nonneg; lia). nia.
Qed.

(** A quotient below [2^K] has an exponent below [K]. *)
Lemma exponent_below n d K :
  0 < n -> 0 < d -> 0 <= K -> n < d * 2 ^ K -> Number.exponent n d < K.
Proof.
  intros Hn Hd HK Hlt.
  destruct (Z_lt_le_dec (Number.exponent n d) K) as [|Hge]; [assumption|].
  pose proof (exponent_lower n d Hn Hd ltac:(lia)) as Hlow.
  assert (2 ^ K <= 2 ^ Number.exponent n d) by (apply Z.pow_le_mono_r; lia).
  nia.
Qed.

(** What [Number.div] returns, said with integers: a multiple [M / 2^k]
    of [2^-k] within half of [2^-k] of the exact quotient, where
    [52 - k] is the exponent of the quotient. *)
Lemma div_spec n d :
  n <> 0 -> 0 < d -> Z.abs n < d * 2 ^ 53 ->
  exists M k,
    0 <= k
    /\ k = 52 - Number.exponent (Z.abs n) d
    /\ Qeq (Number.div n d) (M # Z.to_pos (2 ^ k))
    /\ 2 * Z.abs (M * d - n * 2 ^ k) <= d.
Proof.
  intros Hn Hd Hlt. unfold Number.div.
  destruct (Z.eqb_spec n 0) as [|_]; [contradiction|].
  pose proof (exponent_below (Z.abs n) d 53 ltac:(lia) Hd ltac:(lia) Hlt) as He.
  set (k := 52 - Number.exponent (Z.abs n) d) in *.
  assert (Hk : 0 <= k) by lia.
  destruct (Z.leb_spec 0 k) as [_|]; [|lia].
  exists (Z.sgn n * Number.nearest_even (Z.abs n * 2 ^ k) d), k.
  split; [assumption|]. split; [reflexivity|]. split; [apply Qred_correct|].
  assert (Hpow : 0 < 2 ^ k) by (apply Z.pow_pos_nonneg; lia).
  pose proof (nearest_even_close (Z.abs n * 2 ^ k) d ltac:(nia) Hd) as Hclose.
  set (m := Number.nearest_even (Z.abs n * 2 ^ k) d) in *.
  destruct (Z.sgn_spec n) as [[Hpos Hs] | [[Hz Hs] | [Hneg Hs]]]; rewrite Hs; nia.
Qed.

End Numbers.

(** ** Dates, field by field *)

Section DateFields.

Lemma leap_year_agrees y : Date.InLeapYear y = gregorian_leap y.
Proof.
  unfold Date.InLeapYear, gregorian_leap.
  destruct (Z.eqb_spec (y mod 4) 0); destruct (Z.eqb_spec (y mod 100) 0);
    destruct (Z.eqb_spec (y mod 400) 0); try reflexivity;
    exfalso; Z.to_euclidean_division_equations; lia.
Qed.

Lemma month_cases m :
  1 <= m <= 12 ->
  m = 1 \/ m = 2 \/ m = 3 \/ m = 4 \/ m = 5 \/ m = 6
  \/ m = 7 \/ m = 8 \/ m = 9 \/ m = 10 \/ m = 11 \/ m = 12.
Proof. lia. Qed.

Lemma DaysInMonth_is_month_length y m :
  1 <= m <= 12 -> Date.DaysInMonth y m = month_length y m.
Proof.
  intros Hm. unfold Date.DaysInMonth, month_length. rewrite leap_year_agrees.
  destruct (month_cases m Hm) as [-> | [-> | [-> | [-> | [-> | [-> | [-> | [-> | [->
    | [-> | [-> | ->]]]]]]]]]]]; reflexivity.
Qed.

Lemma month_length_bounds y m : 1 <= m <= 12 -> 28 <= month_length y m <= 31.
Proof.
  intros Hm. unfold month_length.
  destruct (month_cases m Hm) as [-> | [-> | [-> | [-> | [-> | [-> | [-> | [-> | [->
    | [-> | [-> | ->]]]]]]]]]]]; simpl; try lia.
  destruct (gregorian_leap y); lia.
Qed.

#[local] Ltac by_sign :=
  match goal with
  | Hgen : forall sign rest, _, H : mbind _ (Date.digits _ _ ?r) = _ |- _ =>
      match type of H with
      | context [Ascii.eqb ?c "+"%char] => exact (Hgen c r H)
      end
  end.

Lemma zone_bound s off : Date.zone s = Some off -> -1439 <= off <= 1439.
Proof.
  assert (Hgen : forall sign rest,
             ('(h, rest) ← Date.digits 2 0 rest;
              rest ← Date.expect ":" rest;
              '(m, rest) ← Date.digits 2 0 rest;
              if bool_decide (rest = EmptyString) && (h <=? 23) && (m <=? 59)
              then (if Ascii.eqb sign "+" then Some (h * 60 + m)
                    else if Ascii.eqb sign "-" then Some (- (h * 60 + m))
                    else None)
              else None) = Some off ->
             -1439 <= off <= 1439).
  { intros sign rest H.
    apply bind_Some in H as ([h r1] & Hh & H). cbv beta iota in H.
    apply bind_Some in H as (r2 & _ & H).
    apply bind_Some in H as ([m r3] & Hm & H). cbv beta iota in H.
    apply digits_bound in Hh; [|lia]. apply digits_bound in Hm; [|lia].
    destruct (_ && _) eqn:Hc; [|discriminate].
    apply andb_true_iff in Hc as [Hc Hm59]. apply andb_true_iff in Hc as [_ Hh23].
    apply Z.leb_le in Hm59, Hh23.
    destruct (Ascii.eqb sign "+"); [injection H as <-; lia|].
    destruct (Ascii.eqb sign "-"); [injection H as <-; lia | discriminate]. }
  unfold Date.zone. intros H. destruct s as [|c s]; [discriminate|].
  destruct c as [[] [] [] [] [] [] [] []]; cbv beta iota in H; try by_sign.
  destruct s; cbv beta iota in H; [injection H as <-; lia | by_sign].
Qed.

(** The fields of a date that [parse_fields] accepts are well formed. *)
Lemma parse_fields_well_formed s f :
  Date.parse_fields s = Some f -> well_formed_fields f.
Proof.
  unfold Date.parse_fields. intros H.
  repeat (first [ apply bind_Some in H as ([? ?] & ? & H)
                | apply bind_Some in H as (? & ? & H) ];
          cbv beta iota in H).
  destruct (_ && _) eqn:Hc in H; [|discriminate].
  repeat match goal with
         | E : Date.digits _ 0 _ = Some _ |- _ => apply digits_bound in E; [|lia]
         | E : Date.fraction _ = Some _ |- _ => apply fraction_bound in E
         | E : Date.zone _ = Some _ |- _ => apply zone_bound in E
         end.
  repeat (apply andb_true_iff in Hc as [Hc ?]).
  repeat match goal with
         | E : (_ <=? _) = true |- _ => apply Z.leb_le in E
         end.
  injection H as <-. unfold well_formed_fields, valid_date. simpl.
  rewrite <- DaysInMonth_is_month_length by lia.
  change (10 ^ Z.of_nat 4) with 10000 in *. change (10 ^ Z.of_nat 2) with 100 in *.
  lia.
Qed.

Lemma days_before_bounds y m :
  1 <= m <= 12 -> 0 <= Date.days_before y (Z.to_nat (m - 1)) <= 335.
Proof.
  intros Hm.
  destruct (month_cases m Hm) as [-> | [-> | [-> | [-> | [-> | [-> | [-> | [-> | [->
    | [-> | [-> | ->]]]]]]]]]]];
    vm_compute Z.to_nat; cbn [Date.days_before]; unfold Date.DaysInMonth;
    vm_compute Z.of_nat; simpl; destruct (Date.InLeapYear y); lia.
Qed.

(** The time value of a well-formed date lies within [1000 * 2^38]
    milliseconds of the epoch. *)
Lemma time_value_range f :
  well_formed_fields f -> Z.abs (Date.time_value f) < 1000 * 2 ^ 38.
Proof.
  intros (Hy & [Hm Hd] & Hh & Hmi & Hs & Hms & Hoff).
  pose proof (month_length_bounds (Date.year f) (Date.month f) Hm) as Hlen.
  pose proof (days_before_bounds (Date.year f) (Date.month f) Hm) as Hbefore.
  unfold Date.time_value, Date.MakeDate, Date.MakeTime, Date.MakeDay, Date.DayFromYear.
  change (2 ^ 38) with 274877906944.
  Z.to_euclidean_division_equations. lia.
Qed.

End DateFields.

(** ** Seconds from a time value *)

Section Seconds.

(** The quotient of a time value by 1000 is a multiple of [2^-k] with
    [15 <= k], within half of [2^-k] of the exact quotient. *)
Lemma seconds_spec n :
  Z.abs n < 1000 * 2 ^ 38 ->
  exists M k,
    15 <= k
    /\ Qeq (Number.div n 1000) (M # Z.to_pos (2 ^ k))
    /\ 2 * Z.abs (M * 1000 - n * 2 ^ k) <= 1000.
Proof.
  intros Hn. destruct (Z.eq_dec n 0) as [-> | Hnz].
  - exists 0, 15. split; [lia|]. split; [reflexivity | simpl; lia].
  - destruct (div_spec n 1000 Hnz ltac:(lia)) as (M & k & _ & Hk & Hq & Hclose).
    + assert (2 ^ 38 <= 2 ^ 53) by (apply Z.pow_le_mono_r; lia). lia.
    + pose proof (exponent_below (Z.abs n) 1000 38 ltac:(lia) ltac:(lia) ltac:(lia) Hn).
      exists M, k. split; [lia|]. split; assumption.
Qed.

Lemma power_of_two_large k :
  15 <= k -> 0 < 2 ^ k /\ 32768 <= 2 ^ k /\ exists P, 2 ^ k = 8 * P.
Proof.
  intros Hk. split; [apply Z.pow_pos_nonneg; lia|]. split.
  - change 32768 with (2 ^ 15). apply Z.pow_le_mono_r; lia.
  - exists (2 ^ (k - 3)). replace k with (3 + (k - 3)) at 1 by lia.
    rewrite Z.pow_add_r by lia. reflexivity.
Qed.

(** The seconds of a time value [n = s * 1000 + ms]: close to the exact
    quotient, with whole part [s], exact when [ms] is a multiple of 125,
    and with [n] the integer nearest to 1000 times it. *)
Lemma seconds_of_time_value n s ms :
  Z.abs n < 1000 * 2 ^ 38 -> n = s * 1000 + ms -> 0 <= ms < 1000 ->
  let q := Number.div n 1000 in
  (Qabs (q - (n # 1000)) <= 1 # 65536)%Q
  /\ Qfloor q = s
  /\ Qfloor (q * (1000 # 1) + (1 # 2)) = n
  /\ (ms mod 125 = 0 -> Qeq q (n # 1000)).
Proof.
  intros Hn Hsplit Hms q.
  destruct (seconds_spec n Hn) as (M & k & Hk & Hq & Hclose). fold q in Hq.
  destruct (power_of_two_large k Hk) as (Hpos & Hbig & P & HP).
  set (p := 2 ^ k) in *.
  assert (Hp : Z.pos (Z.to_pos p) = p) by (apply Z2Pos.id; assumption).
  repeat split.
  - rewrite Hq. apply Qabs_Qle_condition.
    unfold Qle, Qminus, Qplus, Qopp. cbn [Qnum Qden].
    rewrite !Pos2Z.inj_mul, !Hp. split; nia.
  - rewrite Hq. unfold Qfloor. rewrite Hp.
    symmetry. apply (Z.div_unique M p s (M - s * p)); [left; nia | lia].
  - rewrite Hq. unfold Qfloor, Qplus, Qmult. cbn [Qnum Qden].
    rewrite !Pos2Z.inj_mul, !Hp. 
    symmetry.
    apply (Z.div_unique _ _ n (M * 1000 * 2 + 1 * (p * 1) - n * (p * 1 * 2)));
      [left; nia | lia].
  - intros H125. rewrite Hq. unfold Qeq. cbn [Qnum Qden]. rewrite Hp.
    assert (exists j, n = 125 * j) as [j Hj].
    { exists (n / 125). Z.to_euclidean_division_equations. lia. }
    nia.
Qed.

End Seconds.

(** ** The calendar *)

Section Calendar.

(** A year has 365 days, and one more when it is a leap year. *)
Lemma DayFromYear_succ y :
  Date.DayFromYear (y + 1)
  = Date.DayFromYear y + 365 + (if gregorian_leap y then 1 else 0).
Proof.
  unfold Date.DayFromYear, gregorian_leap.
  destruct (Z.eqb_spec (y mod 4) 0); destruct (Z.eqb_spec (y mod 100) 0);
    destruct (Z.eqb_spec (y mod 400) 0); cbn [andb orb negb];
    Z.to_euclidean_division_equations; lia.
Qed.

Lemma days_before_succ y m :
  1 <= m <= 12 ->
  Date.days_before y (Z.to_nat m)
  = Date.days_before y (Z.to_nat (m - 1)) + month_length y m.
Proof.
  intros Hm. rewrite <- DaysInMonth_is_month_length by assumption.
  replace (Z.to_nat m) with (S (Z.to_nat (m - 1))) at 1 by lia.
  cbn [Date.days_before]. do 2 f_equal. lia.
Qed.

Lemma days_before_year y :
  Date.days_before y 12 = 365 + (if gregorian_leap y then 1 else 0).
Proof.
  cbn [Date.days_before]. unfold Date.DaysInMonth. rewrite leap_year_agrees.
  vm_compute Z.of_nat. cbn [Z.eqb Pos.eqb orb]. destruct (gregorian_leap y); lia.
Qed.

(** Day numbers follow the calendar: the day after a date has the next
    day number, within a month, from one month to the next and from one
    year to the next. *)
Lemma MakeDay_next_day y m d :
  valid_date y m d ->
  let '(y', m', d') := next_day y m d in
  valid_date y' m' d' /\ Date.MakeDay y' m' d' = Date.MakeDay y m d + 1.
Proof.
  intros [Hm Hd]. unfold next_day.
  pose proof (month_length_bounds y m Hm) as Hlen.
  destruct (Z.ltb_spec d (month_length y m)) as [Hlt|Hge].
  - split; [split; lia|]. unfold Date.MakeDay. lia.
  - destruct (Z.ltb_spec m 12) as [Hm12|Hm12].
    + pose proof (month_length_bounds y (m + 1) ltac:(lia)).
      split; [split; lia|]. unfold Date.MakeDay.
      replace (m + 1 - 1) with m by lia.
      rewrite days_before_succ by assumption. lia.
    + assert (m = 12) as -> by lia.
      pose proof (month_length_bounds (y + 1) 1 ltac:(lia)).
      split; [split; lia|]. unfold Date.MakeDay.
      rewrite DayFromYear_succ. pose proof (days_before_year y) as Hyear.
      change 12%nat with (Z.to_nat 12) in Hyear.
      rewrite days_before_succ in Hyear by lia.
      change (Z.to_nat (1 - 1)) with 0%nat. cbn [Date.days_before]. lia.
Qed.

End Calendar.

(** ** Writing a date and reading it back *)

Section RoundTrip.

Lemma digit_of_digit_char d : 0 <= d <= 9 -> Date.digit (digit_char d) = Some d.
Proof.
  intros Hd.
  assert (d = 0 \/ d = 1 \/ d = 2 \/ d = 3 \/ d = 4 \/ d = 5 \/ d = 6 \/ d = 7
          \/ d = 8 \/ d = 9) as H by lia.
  destruct H as [-> | [-> | [-> | [-> | [-> | [-> | [-> | [-> | [-> | ->]]]]]]]]];
    reflexivity.
Qed.

Lemma digits_of_pad_from k acc n rest :
  0 <= n < 10 ^ Z.of_nat k ->
  Date.digits k acc (pad k n +:+ rest) = Some (acc * 10 ^ Z.of_nat k + n, rest).
Proof.
  revert acc n; induction k as [|k IH]; intros acc n Hn.
  - simpl in *. do 2 f_equal. lia.
  - rewrite Nat2Z.inj_succ, Z.pow_succ_r in * by lia.
    assert (Hpow : 0 < 10 ^ Z.of_nat k) by (apply Z.pow_pos_nonneg; lia).
    cbn [pad Date.digits String.append].
    rewrite digit_of_digit_char.
    + rewrite IH by (apply Z.mod_pos_bound; assumption).
      do 2 f_equal. pose proof (Z.div_mod n (10 ^ Z.of_nat k) ltac:(lia)). lia.
    + split; [apply Z.div_pos; lia|].
      assert (n / 10 ^ Z.of_nat k < 10); [|lia].
      apply Z.div_lt_upper_bound; lia.
Qed.

Lemma digits_of_pad k n rest :
  0 <= n < 10 ^ Z.of_nat k -> Date.digits k 0 (pad k n +:+ rest) = Some (n, rest).
Proof. intros Hn. now rewrite digits_of_pad_from. Qed.

Lemma expect_of_char c rest : Date.expect c (String c EmptyString +:+ rest) = Some rest.
Proof. cbn [String.append Date.expect]. now rewrite Ascii.eqb_refl. Qed.

Lemma zone_of_zone_string off :
  -1439 <= off <= 1439 -> Date.zone (zone_string off) = Some off.
Proof.
  intros Hoff. unfold zone_string.
  destruct (Z.eqb_spec off 0) as [-> | Hnz]; [reflexivity|].
  assert (Hh : 0 <= Z.abs off / 60 < 10 ^ Z.of_nat 2).
  { change (10 ^ Z.of_nat 2) with 100. Z.to_euclidean_division_equations. lia. }
  assert (Hm : 0 <= Z.abs off mod 60 < 10 ^ Z.of_nat 2).
  { change (10 ^ Z.of_nat 2) with 100. Z.to_euclidean_division_equations. lia. }
  assert (Hh23 : (Z.abs off / 60 <=? 23) = true).
  { apply Z.leb_le. Z.to_euclidean_division_equations. lia. }
  assert (Hm59 : (Z.abs off mod 60 <=? 59) = true).
  { apply Z.leb_le. Z.to_euclidean_division_equations. lia. }
  assert (Hgen : forall sign,
             ('(h, rest) ← Date.digits 2 0
                 (pad 2 (Z.abs off / 60) +:+ ":" +:+ pad 2 (Z.abs off mod 60));
              rest ← Date.expect ":" rest;
              '(m, rest) ← Date.digits 2 0 rest;
              if bool_decide (rest = EmptyString) && (h <=? 23) && (m <=? 59)
              then (if Ascii.eqb sign "+" then Some (h * 60 + m)
                    else if Ascii.eqb sign "-" then Some (- (h * 60 + m))
                    else None)
              else None)
             = (if Ascii.eqb sign "+" then Some (Z.abs off)
                else if Ascii.eqb sign "-" then Some (- Z.abs off) else None)).
  { intros sign. rewrite digits_of_pad by assumption.
    cbv beta iota delta [mbind option_bind]. rewrite expect_of_char.
    cbv beta iota.
    rewrite <- (string_app_nil_r (pad 2 (Z.abs off mod 60))).
    rewrite digits_of_pad by assumption. cbv beta iota.
    rewrite Hh23, Hm59. cbn [bool_decide decide_rel andb].
    rewrite bool_decide_eq_true_2 by reflexivity. cbn [andb].
    replace (Z.abs off / 60 * 60 + Z.abs off mod 60) with (Z.abs off)
      by (Z.to_euclidean_division_equations; lia).
    reflexivity. }
  destruct (Z.ltb_spec 0 off).
  - cbv beta iota delta [Date.zone]. rewrite (Hgen "+"%char).
    cbn [Ascii.eqb Bool.eqb]. f_equal. lia.
  - cbv beta iota delta [Date.zone]. rewrite (Hgen "-"%char).
    cbn [Ascii.eqb Bool.eqb]. f_equal. lia.
Qed.

Lemma fraction_of_zone_string off :
  Date.fraction (zone_string off) = Some (0, zone_string off).
Proof.
  unfold zone_string. destruct (off =? 0); [reflexivity|].
  destruct (0 <? off); reflexivity.
Qed.

(** A date-time written in the format is read back field by field. *)
Lemma parse_fields_format fraction f :
  well_formed_fields f -> (fraction = false -> Date.millis f = 0) ->
  Date.parse_fields (format fraction f) = Some f.
Proof.
  intros (Hy & [Hm Hd] & Hh & Hmi & Hs & Hms & Hoff) Hfraction.
  unfold Date.parse_fields, format.
  change 9999 with (10 ^ Z.of_nat 4 - 1) in Hy.
  pose proof (month_length_bounds (Date.year f) (Date.month f) Hm) as Hlen.
  assert (H100 : 10 ^ Z.of_nat 2 = 100) by reflexivity.
  assert (H1000 : 10 ^ Z.of_nat 3 = 1000) by reflexivity.
  rewrite digits_of_pad by lia. cbv beta iota delta [mbind option_bind].
  rewrite expect_of_char. cbv beta iota.
  rewrite digits_of_pad by lia. cbv beta iota.
  rewrite expect_of_char. cbv beta iota.
  rewrite digits_of_pad by lia. cbv beta iota.
  rewrite expect_of_char. cbv beta iota.
  rewrite digits_of_pad by lia. cbv beta iota.
  rewrite expect_of_char. cbv beta iota.
  rewrite digits_of_pad by lia. cbv beta iota.
  rewrite expect_of_char. cbv beta iota.
  rewrite digits_of_pad by lia. cbv beta iota.
  assert (Hfrac : Date.fraction
                    ((if fraction then "." +:+ pad 3 (Date.millis f) else EmptyString)
                     +:+ zone_string (Date.offset f))
                  = Some (Date.millis f, zone_string (Date.offset f))).
  { destruct fraction.
    - cbn [String.append Date.fraction]. apply digits_of_pad. lia.
    - cbn [String.append]. rewrite fraction_of_zone_string, Hfraction; reflexivity. }
  rewrite Hfrac. cbv beta iota.
  rewrite zone_of_zone_string by assumption. cbv beta iota.
  rewrite DaysInMonth_is_month_length by assumption.
  repeat match goal with
         | |- context [?a <=? ?b] =>
             rewrite (proj2 (Z.leb_le a b)) by lia
         end.
  cbn [andb]. destruct f; reflexivity.
Qed.

End RoundTrip.

(** ** The timestamp of a message *)

Section MessageTimestamp.

Context (env : process_env).

Implicit Types (context : Context.t) (w : world).

#[local] Ltac not_sent H := exfalso; exact (sent_grows _ _ H).

#[local] Ltac was_sent H :=
  cbn [fst] in H; rewrite sent_sendSlackMessage in H;
  apply app_inj_tail in H as [_ <-].

(** Every message carries one attachment, and its [ts] is the seconds of
    the timestamp of the event. *)
Lemma message_timestamp context w msg :
  sent (receive env context w).1 = sent w ++ [msg] ->
  Attachment.ts <$> Message.attachments msg
  = [Date.seconds_of (event_timestamp context)].
Proof.
  unfold receive, handlers, event_timestamp. cbn [find_handler].
  destruct (String.eqb_spec "pull_request.labeled" (Context.name context)) as [<-|_].
  { cbn [String.eqb Ascii.eqb Bool.eqb]. unfold handleLabeled.
    destruct (Payload.label _); [|intros H; not_sent H].
    destruct (negb _); intros H; [not_sent H|]. was_sent H. reflexivity. }
  destruct (String.eqb_spec "pull_request.closed" (Context.name context)) as [_|_].
  { unfold handleClosed.
    destruct (negb _); [intros H; not_sent H|].
    destruct (PullRequest.merged _).
    - destruct (PullRequest.merged_by _); intros H; [|not_sent H].
      was_sent H. reflexivity.
    - intros H. was_sent H. reflexivity. }
  destruct (String.eqb_spec "pull_request.reopened" (Context.name context)) as [<-|_].
  { cbn [String.eqb Ascii.eqb Bool.eqb]. unfold handleReopened.
    destruct (negb _); intros H; [not_sent H|]. was_sent H. reflexivity. }
  destruct (String.eqb_spec "pull_request_review.submitted" (Context.name context))
    as [_|_]; [|intros H; not_sent H].
  unfold handleReviewSubmitted.
  destruct (negb _); [intros H; not_sent H|].
  destruct (Payload.review _) as [review|]; [|intros H; not_sent H].
  destruct (negb _ && negb _); [intros H; not_sent H|].
  destruct (Review.body review); [|intros H; not_sent H].
  destruct (String.eqb (Review.state review) "approved");
    [|destruct (String.eqb (Review.state review) "changes_requested")];
    intros H; was_sent H; reflexivity.
Qed.

End MessageTimestamp.

(** ** [Number.div] and the division of the Standard Library *)

Lemma div_is_binary64_division :
  (fun n => binary64_quotient n 1000) <$> compared_time_values
  = (fun n => Some (Number.div n 1000)) <$> compared_time_values.
Proof. vm_compute. reflexivity. Qed.

(** ** Timestamps *)

(** C8.  A timestamp string of the date-time format becomes the number
    of seconds since the epoch with its fraction, and nothing is rounded
    to whole seconds.  For every string [s] that is read as the fields
    [f]: the result is the time value in milliseconds divided by 1000 as
    numbers are divided; the time value is the whole seconds of the date
    times 1000 plus its milliseconds, and the whole seconds are the days
    since the epoch times 86400 plus the time of the day less the zone
    offset; the whole part of the result is the whole seconds; the
    milliseconds are kept, since the integer nearest to 1000 times the
    result is the time value again; the result is within [2^-16] of the
    exact quotient, and is the exact quotient when the milliseconds are a
    multiple of 125, so for every timestamp of whole seconds.  The day
    numbers follow the calendar: 1970-01-01 is day 0 and the day after a
    date has the next number.  A date-time written in the format, with or
    without the fraction, is read back as its fields.
    "2024-01-01T00:00:00.000Z" becomes 1704067200 exactly, while
    "2024-01-01T00:00:00.999Z" becomes the binary64 number nearest to
    1704067200.999, which is not that fraction itself.  The number is
    what every message carries: the [ts] of its one attachment is the
    seconds of the timestamp of the event.  On the time values to
    compare on, the division is the binary64 division of the Standard
    Library. *)
Theorem timestamp_in_seconds :
  (forall (s : string) (f : Date.fields),
      Date.parse_fields s = Some f ->
      exists q : Q,
        Date.seconds_of (Some s) = Some q
        /\ q = Number.div (Date.time_value f) 1000
        /\ Date.time_value f = Date.epoch_seconds f * 1000 + Date.millis f
        /\ Date.epoch_seconds f
           = Date.MakeDay (Date.year f) (Date.month f) (Date.day f) * 86400
             + Date.hours f * 3600 + Date.minutes f * 60 + Date.seconds f
             - Date.offset f * 60
        /\ 0 <= Date.millis f < 1000
        /\ Qfloor q = Date.epoch_seconds f
        /\ Qfloor (q * (1000 # 1) + (1 # 2)) = Date.time_value f
        /\ (Qabs (q - (Date.time_value f # 1000)) <= 1 # 65536)%Q
        /\ (Date.millis f mod 125 = 0 ->
            Qeq q (inject_Z (Date.epoch_seconds f) + (Date.millis f # 1000))))
  /\ Date.MakeDay 1970 1 1 = 0
  /\ (forall y m d : Z,
         valid_date y m d ->
         let '(y', m', d') := next_day y m d in
         valid_date y' m' d' /\ Date.MakeDay y' m' d' = Date.MakeDay y m d + 1)
  /\ (forall (fraction : bool) (f : Date.fields),
         well_formed_fields f -> (fraction = false -> Date.millis f = 0) ->
         Date.parse_fields (format fraction f) = Some f)
  /\ Date.seconds_of (Some "2024-01-01T00:00:00.000Z") = Some (1704067200 # 1)
  /\ (Date.seconds_of (Some "2024-01-01T00:00:00.999Z")
      = Some (3573687938709455 # 2097152)
      /\ ~ Qeq (3573687938709455 # 2097152) (1704067200999 # 1000))
  /\ (forall (env : process_env) (context : Context.t) (w : world) (msg : Message.t),
         sent (receive env context w).1 = sent w ++ [msg] ->
         Attachment.ts <$> Message.attachments msg
         = [Date.seconds_of (event_timestamp context)])
  /\ (fun n => binary64_quotient n 1000) <$> compared_time_values
     = (fun n => Some (Number.div n 1000)) <$> compared_time_values.
Proof.
  split; [|split; [|split; [|split; [|split; [|split; [|split]]]]]].
  - intros s f Hf.
    pose proof (parse_fields_well_formed s f Hf) as Hwf.
    pose proof (time_value_range f Hwf) as Hrange.
    pose proof (parse_fields_millis s f Hf) as Hms.
    pose proof (time_value_split f) as Hsplit.
    destruct (seconds_of_time_value _ _ _ Hrange Hsplit Hms)
      as (Hclose & Hfloor & Hround & Hexact).
    exists (Number.div (Date.time_value f) 1000).
    split; [unfold Date.seconds_of, Date.new, Date.parse; now rewrite Hf|].
    split; [reflexivity|]. split; [assumption|]. split; [reflexivity|].
    split; [assumption|]. split; [assumption|]. split; [assumption|].
    split; [assumption|].
    intros H125. rewrite (Hexact H125), Hsplit.
    unfold Qeq, Qplus, inject_Z. cbn [Qnum Qden]. lia.
  - reflexivity.
  - exact MakeDay_next_day.
  - exact parse_fields_format.
  - vm_compute. reflexivity.
  - split; [vm_compute; reflexivity|]. unfold Qeq. cbn [Qnum Qden]. lia.
  - exact message_timestamp.
  - exact div_is_binary64_division.
Qed.

Lemma timestamp_in_seconds_witness :
  let s := "2024-03-01T12:34:56.250+02:00" in
  let f := {| Date.year := 2024; Date.month := 3; Date.day := 1;
              Date.hours := 12; Date.minutes := 34; Date.seconds := 56;
              Date.millis := 250; Date.offset := 120 |} in
  Date.parse_fields s = Some f
  /\ exists q : Q,
       Date.seconds_of (Some s) = Some q
       /\ q = Number.div (Date.time_value f) 1000
       /\ Date.time_value f = Date.epoch_seconds f * 1000 + Date.millis f
       /\ Date.epoch_seconds f
          = Date.MakeDay (Date.year f) (Date.month f) (Date.day f) * 86400
            + Date.hours f * 3600 + Date.minutes f * 60 + Date.seconds f
            - Date.offset f * 60
       /\ 0 <= Date.millis f < 1000
       /\ Qfloor q = Date.epoch_seconds f
       /\ Qfloor (q * (1000 # 1) + (1 # 2)) = Date.time_value f
       /\ (Qabs (q - (Date.time_value f # 1000)) <= 1 # 65536)%Q
       /\ (Date.millis f mod 125 = 0 ->
           Qeq q (inject_Z (Date.epoch_seconds f) + (Date.millis f # 1000))).
Proof.
  intros s f. split; [reflexivity|].
  apply (proj1 timestamp_in_seconds s f). reflexivity.
Defined.

(** ** One event, one message *)

Section OneMessage.

Context (env : process_env) (slack : slack_api).

Implicit Types (context : Context.t) (w : world).

(** A handler either returns without calling the notifier, the world
    being as it was, or calls it once, last, after at most a line of
    log, with a message that has no [channel] yet. *)
Lemma receive_shape context w :
  (exists c, receive env context w = (w, c))
  \/ (exists msg w2,
         receive env context w = (sendSlackMessage env msg w2, Normal)
         /\ api_calls w2 = api_calls w /\ pending w2 = pending w
         /\ activations w2 = activations w /\ console w2 = console w
         /\ Message.channel msg = None).
Proof.
  unfold receive, handlers. cbn [find_handler].
  repeat match goal with
         | |- context [String.eqb ?a (Context.name context)] =>
             destruct (String.eqb a (Context.name context))
         end;
    [unfold handleLabeled | unfold handleClosed | unfold handleReopened
     | unfold handleReviewSubmitted | left; eexists; reflexivity];
    repeat match goal with
           | |- context [if ?b then _ else _] => destruct b
           | |- context [match ?x with Some _ => _ | None => _ end] => destruct x
           end;
    first [ left; eexists; reflexivity
          | right; eexists _, _; split; [reflexivity | repeat split] ].
Qed.

Lemma getChannels_channels client channels :
  getChannels slack client = inr channels <->
  users_conversations slack (token client) = Ok channels.
Proof.
  unfold getChannels. destruct (users_conversations slack (token client));
    split; intros H; try discriminate; now injection H as ->.
Qed.

(** C9.  An event, arriving in any world, also one where the
    callbacks of earlier events are still waiting, makes its handler call
    the notifier at most once, so at most one message is built, and the
    turns of the job queue build none.  At every later turn each call
    that has been made is one that was made before the event, or a post
    that was due for a callback that was waiting before the event, or a
    listing call of this event, or a post of this event; and every post
    of this event is made by a configured client to the id of a channel
    that its workspace listed, with the one message of the event: the
    same [text], the same [blocks] and the same [attachments], and
    nothing changed but the [channel], which the message did not have. *)
Theorem one_message_everywhere context schedule w :
  let w' := run slack schedule (receive env context w).1 in
  (sent w' = sent w \/ exists msg, sent w' = sent w ++ [msg])
  /\ (forall call,
         call ∈ api_calls w' ->
         call ∈ api_calls w
         \/ call ∈ (pending w ≫= outstanding_calls slack)
         \/ (exists msg client,
                sent w' = sent w ++ [msg]
                /\ client ∈ slackClients env
                /\ call = UsersConversations client)
         \/ (exists msg client channels channel message,
                sent w' = sent w ++ [msg]
                /\ Message.channel msg = None
                /\ client ∈ slackClients env
                /\ users_conversations slack (token client) = Ok channels
                /\ channel ∈ channels
                /\ call = ChatPostMessage client message
                /\ Message.text message = Message.text msg
                /\ Message.blocks message = Message.blocks msg
                /\ Message.attachments message = Message.attachments msg
                /\ Message.channel message = Some (Channel.id channel))).
Proof.
  intros w'. subst w'.
  destruct (receive_shape context w)
    as [[c ->] | (msg & w2 & -> & Hcalls & Hpending & Hacts & _ & Hchannel)]; simpl.
  - rewrite run_sent. split; [now left|]. intros call Hcall.
    pose proof (run_calls slack schedule w) as Hperm.
    assert (Hin : call ∈ api_calls w ++ (pending w ≫= outstanding_calls slack)).
    { rewrite <- Hperm. apply elem_of_app. now left. }
    apply elem_of_app in Hin as [Hin | Hin]; [now left | right; now left].
  - assert (Hsent : sent (run slack schedule (sendSlackMessage env msg w2))
                    = sent w ++ [msg]).
    { rewrite run_sent, sent_sendSlackMessage. unfold sent. now rewrite Hacts. }
    split; [right; now exists msg|].
    intros call Hcall.
    pose proof (run_calls slack schedule (sendSlackMessage env msg w2)) as Hperm.
    assert (Hin : call ∈ api_calls (sendSlackMessage env msg w2)
                         ++ (pending (sendSlackMessage env msg w2)
                               ≫= outstanding_calls slack)).
    { rewrite <- Hperm. apply elem_of_app. now left. }
    rewrite sendSlackMessage_returns in Hin. simpl in Hin.
    rewrite Hpending, Hcalls, bind_app in Hin.
    rewrite clients_outstanding_calls in Hin.
    apply elem_of_app in Hin as [Hin | Hin];
      [apply elem_of_app in Hin as [Hin | Hin]
      |apply elem_of_app in Hin as [Hin | Hin]].
    + now left.
    + right. right. left.
      apply list_elem_of_fmap in Hin as (client & -> & Hclient). now exists msg, client.
    + right. now left.
    + right. right. right.
      apply list_elem_of_bind in Hin as (client & Hdue & Hclient).
      unfold posts_due in Hdue.
      destruct (getChannels slack client) as [err|channels] eqn:Hc;
        [inversion Hdue|].
      apply list_elem_of_fmap in Hdue as (channel & -> & Hchannels).
      exists msg, client, channels, channel,
        (Message.with_channel msg (Channel.id channel)).
      split; [assumption|]. split; [assumption|]. split; [assumption|].
      split; [now apply getChannels_channels|]. split; [assumption|].
      split; [reflexivity|]. repeat split.
Qed.

End OneMessage.

(** ** Failures during the fan-out *)

Section Isolation.

Context (env : process_env) (slack : slack_api).

Lemma failed_listing_posts_nothing msg client err :
  getChannels slack client = inl err -> posts_due slack msg client = [].
Proof. intros H. unfold posts_due. now rewrite H. Qed.

(** C4.  One call of the notifier from a world where nothing waits, run
    until nothing waits again, and a configured client.  When the listing
    of its workspace succeeds, every channel listed is posted the
    message, whatever happens to other channels and other workspaces, and
    a post that fails is recorded as an error that names the channel.
    When the listing fails, the failure is recorded as an error of the
    workspace and no post is made with that client. *)
Theorem failures_are_isolated msg schedule w client :
  pending w = [] ->
  let w' := run slack schedule (sendSlackMessage env msg w) in
  let errors := length (activations w) in
  pending w' = [] ->
  client ∈ slackClients env ->
  (forall channels channel,
      users_conversations slack (token client) = Ok channels ->
      channel ∈ channels ->
      let message := Message.with_channel msg (Channel.id channel) in
      ChatPostMessage client message ∈ api_calls w'
      /\ (forall error,
             chat_postMessage slack (token client) message = NotOk error ->
             ErrorText ("Unable to send message to slack channel "
                        +:+ Channel.name_normalized channel +:+ ": "
                        +:+ "Error: " +:+ error) ∈ recorded errors w')
      /\ (forall reason,
             chat_postMessage slack (token client) message = Rejected reason ->
             ErrorText ("Unable to send message to slack channel "
                        +:+ Channel.name_normalized channel +:+ ": "
                        +:+ reason) ∈ recorded errors w'))
  /\ (forall error,
         users_conversations slack (token client) = NotOk error ->
         ErrorObject ("Could not retrieve list of channels: "
                      +:+ "Error: " +:+ error) ∈ recorded errors w'
         /\ (forall message,
                ChatPostMessage client message ∈ api_calls w' ->
                ChatPostMessage client message ∈ api_calls w))
  /\ (forall reason,
         users_conversations slack (token client) = Rejected reason ->
         ErrorObject ("Could not retrieve list of channels: " +:+ reason)
           ∈ recorded errors w'
         /\ (forall message,
                ChatPostMessage client message ∈ api_calls w' ->
                ChatPostMessage client message ∈ api_calls w)).
Proof.
  intros Hw w' errors Hw' Hclient.
  destruct (fan_out_complete env slack msg schedule w Hw Hw')
    as (Hcalls & Herrors & _ & _).
  fold w' in Hcalls, Herrors. fold errors in Herrors.
  assert (Hfailed : forall err,
             getChannels slack client = inl err ->
             err ∈ recorded errors w'
             /\ (forall message,
                    ChatPostMessage client message ∈ api_calls w' ->
                    ChatPostMessage client message ∈ api_calls w)).
  { intros err Herr. split.
    - rewrite Herrors. apply list_elem_of_bind. exists client.
      split; [|assumption]. unfold errors_due. rewrite Herr. now left.
    - intros message Hmessage. rewrite Hcalls in Hmessage.
      apply elem_of_app in Hmessage as [Hold | Hnew]; [assumption|].
      apply elem_of_app in Hnew as [Hlisting | Hposts].
      + apply list_elem_of_fmap in Hlisting as (c & Hc & _). discriminate Hc.
      + apply list_elem_of_bind in Hposts as (c & Hdue & _).
        unfold posts_due in Hdue.
        destruct (getChannels slack c) as [e|channels] eqn:Hc; [inversion Hdue|].
        apply list_elem_of_fmap in Hdue as (channel & [= <- _] & _). congruence. }
  split; [|split].
  - intros channels channel Hlist%getChannels_channels Hchannel message.
    assert (Hpost : forall v,
               post_failure slack client channel message = Some v ->
               v ∈ recorded errors w').
    { intros v Hv. rewrite Herrors. apply list_elem_of_bind. exists client.
      split; [|assumption]. unfold errors_due. rewrite Hlist.
      apply list_elem_of_omap. now exists channel. }
    split; [|split].
    + rewrite Hcalls. apply elem_of_app. right. apply elem_of_app. right.
      apply list_elem_of_bind. exists client. split; [|assumption].
      unfold posts_due. rewrite Hlist. apply list_elem_of_fmap. now exists channel.
    + intros error Herror. apply Hpost. unfold post_failure. now rewrite Herror.
    + intros reason Hreason. apply Hpost. unfold post_failure. now rewrite Hreason.
  - intros error Herror. apply Hfailed. unfold getChannels. now rewrite Herror.
  - intros reason Hreason. apply Hfailed. unfold getChannels. now rewrite Hreason.
Qed.

(** The job queue of [sendSlackMessage] can always be run until nothing
    waits. *)
Lemma fan_out_ends msg w :
  exists schedule, pending (run slack schedule (sendSlackMessage env msg w)) = [].
Proof. eexists. apply run_drains. Qed.

(** C2.  Nothing the notifier starts is ever printed: whatever the
    workspaces answer and in whatever order the callbacks go on, the
    console after the call and after every turn of the job queue is the
    console before the call.  The errors are recorded all the same, as
    in the sample workspaces, where the run ends with two errors in the
    array and an empty console. *)
Theorem recorded_errors_are_not_printed :
  (forall msg schedule w,
      console (run slack schedule (sendSlackMessage env msg w)) = console w)
  /\ (let w' := run Sample.slack [0; 0; 0; 0]%nat
                    (sendSlackMessage Sample.env Sample.hello initial_world) in
      pending w' = []
      /\ recorded 0 w'
         = [ErrorObject "Could not retrieve list of channels: Error: invalid_auth";
            ErrorText "Unable to send message to slack channel reviews: Error: channel_not_found"]
      /\ console w' = []).
Proof.
  split.
  - intros msg schedule w. rewrite run_console. now rewrite sendSlackMessage_returns.
  - repeat split.
Qed.

End Isolation.

Lemma failures_are_isolated_witness :
  let w' := run Sample.slack [1; 0; 1; 0]%nat
                (sendSlackMessage Sample.env Sample.hello initial_world) in
  (ChatPostMessage Sample.second (Message.with_channel Sample.hello "C01")
     ∈ api_calls w'
   /\ ErrorText "Unable to send message to slack channel reviews: Error: channel_not_found"
        ∈ recorded 0 w')
  /\ (ErrorObject "Could not retrieve list of channels: Error: invalid_auth"
        ∈ recorded 0 w'
      /\ forall message,
          ChatPostMessage Sample.first message ∈ api_calls w' ->
          ChatPostMessage Sample.first message ∈ api_calls initial_world).
Proof.
  split.
  - destruct (failures_are_isolated Sample.env Sample.slack Sample.hello
                [1; 0; 1; 0]%nat initial_world Sample.second)
      as (Hlisted & _).
    + reflexivity.
    + reflexivity.
    + right. left.
    + split.
      * apply (Hlisted [Sample.general; Sample.reviews] Sample.general).
        -- reflexivity.
        -- left.
      * destruct (Hlisted [Sample.general; Sample.reviews] Sample.reviews)
          as (_ & Hfails & _).
        -- reflexivity.
        -- right. left.
        -- apply (Hfails "channel_not_found"). reflexivity.
  - destruct (failures_are_isolated Sample.env Sample.slack Sample.hello
                [1; 0; 1; 0]%nat initial_world Sample.first)
      as (_ & Hfailed & _).
    + reflexivity.
    + reflexivity.
    + left.
    + apply (Hfailed "invalid_auth"). reflexivity.
Defined.


(** * Further properties of the code *)

(** ** [trunc] and [cutAtFirstNewline] on their own *)

Section TextHelpers.

Implicit Types (s p r : string).

Lemma substring_0_0 s : String.substring 0 0 s = EmptyString.
Proof. now destruct s. Qed.

Lemma JS_substring_0_negative s n : n <= 0 -> JS.substring s 0 n = EmptyString.
Proof.
  intros Hn. unfold JS.substring, JS.clamp.
  assert (Hlen : 0 <= JS.length s) by (unfold JS.length; lia).
  replace (Z.min (Z.min (Z.max 0 0) (JS.length s))
                 (Z.min (Z.max n 0) (JS.length s))) with 0 by lia.
  replace (Z.max (Z.min (Z.max 0 0) (JS.length s))
                 (Z.min (Z.max n 0) (JS.length s)) - 0) with 0 by lia.
  apply substring_0_0.
Qed.

Lemma string_app_assoc s p r : (s +:+ p) +:+ r = s +:+ (p +:+ r).
Proof. induction s as [|a s IH]; simpl; [reflexivity | now rewrite IH]. Qed.

Lemma no_newline_app s r : no_newline s -> no_newline r -> no_newline (s +:+ r).
Proof.
  intros Hs Hr. induction s as [|a s IH]; simpl; [assumption|].
  destruct Hs as [Ha Hs]. split; [assumption | now apply IH].
Qed.

Lemma no_newline_substring s n m : no_newline s -> no_newline (String.substring n m s).
Proof.
  revert n m; induction s as [|a s IH]; intros [|n] [|m] Hs; simpl; try exact I.
  - destruct Hs as [Ha Hs]. split; [assumption | now apply IH].
  - destruct Hs as [Ha Hs]. now apply IH.
  - destruct Hs as [Ha Hs]. now apply IH.
Qed.

Lemma no_newline_dots n : no_newline (dots n).
Proof.
  induction n as [|n IH]; simpl; [exact I|]. split; [|assumption].
  intros H. vm_compute in H. discriminate H.
Qed.

(** The first [n] characters of [p +:+ r] when [n] falls into [p], and
    when it falls into [r]. *)
Lemma substring_app_l p r n :
  (n <= String.length p)%nat -> String.substring 0 n (p +:+ r) = String.substring 0 n p.
Proof.
  revert n; induction p as [|a p IH]; intros n Hn; simpl in *.
  - assert (n = 0%nat) as -> by lia. now rewrite substring_0_0.
  - destruct n as [|n]; [reflexivity|]. simpl. rewrite IH by lia. reflexivity.
Qed.

Lemma substring_app_r p r n :
  (String.length p <= n)%nat ->
  String.substring 0 n (p +:+ r) = p +:+ String.substring 0 (n - String.length p) r.
Proof.
  revert n; induction p as [|a p IH]; intros n Hn; simpl in *.
  - now rewrite Nat.sub_0_r.
  - destruct n as [|n]; [lia|]. simpl. rewrite IH by lia. reflexivity.
Qed.

Lemma cut_has_no_newline s : no_newline (cutAtFirstNewline s).
Proof.
  destruct (indexOf_from_cases s 0) as [[Hs _] | (p & r & -> & Hp & _)].
  - now rewrite cut_without_newline.
  - rewrite cut_at_newline by assumption. apply no_newline_app; [assumption|].
    apply (no_newline_dots 3).
Qed.

Lemma trunc_has_no_newline s len : no_newline s -> no_newline (trunc s len).
Proof.
  intros Hs. unfold trunc. destruct (JS.length s >? len); [|assumption].
  apply no_newline_app; [|apply (no_newline_dots 3)].
  unfold JS.substring. now apply no_newline_substring.
Qed.

(** X1.  Cutting twice is cutting once: [trunc] applied to its own
    result with the same limit changes nothing, for every string and
    every limit, the negative ones too. *)
Theorem trunc_idempotent s len : trunc (trunc s len) len = trunc s len.
Proof.
  destruct (Z_lt_le_dec len 0) as [Hneg|Hpos].
  - assert (H : forall t, trunc t len = "...").
    { intros t. unfold trunc.
      assert (Ht : 0 <= JS.length t) by (unfold JS.length; lia).
      destruct (Z.gtb_spec (JS.length t) len); [|lia].
      rewrite JS_substring_0_negative by lia. reflexivity. }
    now rewrite !H.
  - destruct (Z_lt_le_dec len (JS.length s)) as [Hlong|Hshort].
    + rewrite (trunc_long s len) by lia.
      assert (Hsub : String.length (String.substring 0 (Z.to_nat len) s) = Z.to_nat len).
      { rewrite substring_length. unfold JS.length in Hlong. lia. }
      rewrite trunc_long.
      * rewrite <- Hsub at 1. now rewrite prefix_of_app.
      * unfold JS.length. rewrite string_length_app, Hsub.
        change (String.length "...") with 3%nat. lia.
    + now rewrite !(trunc_short s len) by assumption.
Qed.

(** X2.  When [trunc] cuts, the result is [len + 3] characters long:
    three more than the limit, and longer than the string itself when the
    string is one or two characters over the limit. *)
Theorem trunc_cut_length s len :
  0 <= len < JS.length s ->
  JS.length (trunc s len) = len + 3
  /\ (JS.length s <= len + 2 -> JS.length s < JS.length (trunc s len)).
Proof.
  intros Hlen.
  assert (H : JS.length (trunc s len) = len + 3).
  { rewrite trunc_long by assumption. unfold JS.length in *.
    rewrite string_length_app, substring_length.
    change (String.length "...") with 3%nat. lia. }
  split; [assumption | lia].
Qed.

(** X3.  With a limit below zero every string, the empty one too,
    becomes "..."; with the limit zero the empty string stays empty and
    every other string becomes "...". *)
Theorem trunc_without_room s len :
  (len < 0 -> trunc s len = "...")
  /\ (len = 0 -> s <> EmptyString -> trunc s len = "...")
  /\ trunc EmptyString 0 = EmptyString.
Proof.
  assert (Hs : 0 <= JS.length s) by (unfold JS.length; lia).
  split; [|split].
  - intros Hneg. unfold trunc. destruct (Z.gtb_spec (JS.length s) len); [|lia].
    rewrite JS_substring_0_negative by lia. reflexivity.
  - intros -> Hne. unfold trunc.
    destruct (Z.gtb_spec (JS.length s) 0) as [_|Hle].
    + rewrite JS_substring_0_negative by lia. reflexivity.
    + destruct s; [contradiction | unfold JS.length in Hle; simpl in Hle; lia].
  - reflexivity.
Qed.

(** X4.  What [cutAtFirstNewline] returns has no line feed left, so a
    second cut changes nothing. *)
Theorem cut_is_final s :
  no_newline (cutAtFirstNewline s)
  /\ cutAtFirstNewline (cutAtFirstNewline s) = cutAtFirstNewline s.
Proof.
  split; [apply cut_has_no_newline|].
  apply cut_without_newline, cut_has_no_newline.
Qed.

(** X5.  The text of a review is one line, made of a beginning of the
    body of at most 60 characters and then no dot, three, four or five
    dots, never six; without dots the text is the whole body. *)
Theorem review_text_shape (body : string) :
  let text := trunc (cutAtFirstNewline body) 60 in
  no_newline text
  /\ exists p k,
      text = p +:+ dots k
      /\ (exists rest, body = p +:+ rest)
      /\ no_newline p
      /\ (String.length p <= 60)%nat
      /\ ((k = 0%nat /\ p = body) \/ k = 3%nat \/ k = 4%nat \/ k = 5%nat).
Proof.
  intros text. subst text. split.
  { apply trunc_has_no_newline, cut_has_no_newline. }
  destruct (indexOf_from_cases body 0) as [[Hb _] | (pre & r & -> & Hpre & _)].
  - rewrite cut_without_newline by assumption.
    destruct (le_lt_dec (String.length body) 60) as [Hle|Hlt].
    + exists body, 0%nat. rewrite trunc_short by (unfold JS.length; lia).
      simpl. rewrite string_app_nil_r.
      split; [reflexivity|]. split; [|split; [assumption|split; [assumption|]]].
      * exists EmptyString. now rewrite string_app_nil_r.
      * left. now split.
    + exists (String.substring 0 60 body), 3%nat.
      rewrite (trunc_long body 60) by (unfold JS.length; lia).
      split; [reflexivity|]. split; [|split; [|split]].
      * apply substring_split.
      * now apply no_newline_substring.
      * rewrite substring_length. lia.
      * right. now left.
  - rewrite cut_at_newline by assumption.
    assert (Hcut : String.length (pre +:+ "...") = (String.length pre + 3)%nat).
    { now rewrite string_length_app. }
    assert (Hbody : exists rest, pre +:+ String JS.LF r = pre +:+ rest).
    { now exists (String JS.LF r). }
    destruct (le_lt_dec (String.length pre + 3) 60) as [Hle|Hlt].
    + exists pre, 3%nat. rewrite trunc_short by (unfold JS.length; lia).
      split; [reflexivity|]. split; [assumption|]. split; [assumption|].
      split; [lia|]. right. now left.
    + rewrite (trunc_long (pre +:+ "...") 60) by (unfold JS.length; lia).
      change (Z.to_nat 60) with 60%nat.
      destruct (le_lt_dec 60 (String.length pre)) as [Hfull|Hpart].
      * exists (String.substring 0 60 pre), 3%nat.
        rewrite substring_app_l by assumption.
        split; [reflexivity|]. split; [|split; [|split]].
        -- destruct (substring_split pre 60) as [rest Hrest].
           exists (rest +:+ String JS.LF r).
           rewrite <- string_app_assoc. now rewrite <- Hrest.
        -- now apply no_newline_substring.
        -- rewrite substring_length. lia.
        -- right. now left.
      * rewrite substring_app_r by lia.
        assert (Hk : String.length pre = 58%nat \/ String.length pre = 59%nat) by lia.
        destruct Hk as [Hk | Hk]; rewrite Hk; simpl String.substring;
          rewrite string_app_assoc; simpl (_ +:+ "...").
        -- exists pre, 5%nat. split; [reflexivity|]. split; [assumption|].
           split; [assumption|]. split; [lia|]. right. right. now right.
        -- exists pre, 4%nat. split; [reflexivity|]. split; [assumption|].
           split; [assumption|]. split; [lia|]. right. right. now left.
Qed.

(** X6.  Only the line feed is cut at: when a line ends in a carriage
    return and a line feed, the carriage return stays in the text, before
    the dots. *)
Theorem carriage_return_stays (line rest : string) :
  no_newline line -> (String.length line <= 56)%nat ->
  trunc (cutAtFirstNewline (line +:+ String CR (String JS.LF rest))) 60
  = line +:+ String CR "...".
Proof.
  intros Hline Hlen.
  change (line +:+ String CR (String JS.LF rest))
    with (line +:+ (String CR EmptyString +:+ String JS.LF rest)).
  rewrite <- string_app_assoc. rewrite cut_at_newline.
  - rewrite trunc_short.
    + now rewrite string_app_assoc.
    + unfold JS.length. rewrite !string_length_app. simpl String.length. lia.
  - apply no_newline_app; [assumption|]. simpl. split; [|exact I].
    intros H. vm_compute in H. discriminate H.
Qed.

End TextHelpers.

Lemma trunc_cut_length_witness :
  JS.length (trunc "abcdef" 5) = 5 + 3
  /\ (JS.length "abcdef" <= 5 + 2 -> JS.length "abcdef" < JS.length (trunc "abcdef" 5)).
Proof. apply (trunc_cut_length "abcdef" 5). unfold JS.length. simpl. lia. Defined.

Lemma trunc_without_room_witness :
  trunc EmptyString (-1) = "..." /\ trunc "abc" 0 = "...".
Proof.
  split.
  - apply (proj1 (trunc_without_room EmptyString (-1))). lia.
  - apply (proj1 (proj2 (trunc_without_room "abc" 0))); [reflexivity | discriminate].
Defined.

Lemma carriage_return_stays_witness :
  trunc (cutAtFirstNewline ("first line" +:+ String CR (String JS.LF "second line"))) 60
  = "first line" +:+ String CR "...".
Proof.
  apply (carriage_return_stays "first line" "second line").
  - no_newline_holds.
  - simpl. lia.
Defined.

(** ** The filter and the handlers *)

Section Handlers.

Context (env : process_env).

Implicit Types (context : Context.t) (w : world).

Lemma PR_LABEL_lower : JS.toLowerCase (PR_LABEL env) = PR_LABEL env.
Proof. unfold PR_LABEL. apply toLowerCase_idempotent. Qed.

(** X7.  A pull request all of whose labels have a capital letter in
    their name (a name that lower-casing changes) is never targeted,
    whatever the Target Label is: its closed, reopened and
    review-submitted events leave the world as it was. *)
Theorem capital_labels_never_match context w :
  (forall label, label ∈ labels_of context ->
                 JS.toLowerCase (Label.name label) <> Label.name label) ->
  isTargeted env context = false
  /\ (label_filtered_event (Context.name context) ->
      receive env context w = (w, Normal)).
Proof.
  intros Hcap.
  assert (Ht : isTargeted env context = false).
  { destruct (isTargeted env context) eqn:Ht; [|reflexivity].
    apply isTargeted_true in Ht as (label & Hl & Hname).
    destruct (Hcap label Hl). rewrite Hname. apply PR_LABEL_lower. }
  split; [assumption|]. intros Hname. now apply untargeted_is_ignored.
Qed.

(** X8.  [isTargeted] looks at the names of the labels as a set: two
    label lists with the same names, in any order and with any
    repetition, are targeted or not together. *)
Theorem isTargeted_same_names context labels :
  (forall n, n ∈ (Label.name <$> labels) <-> n ∈ (Label.name <$> labels_of context)) ->
  isTargeted env (with_labels labels context) = isTargeted env context.
Proof.
  intros Hsame.
  assert (Hiff : isTargeted env (with_labels labels context) = true
                 <-> isTargeted env context = true).
  { rewrite !isTargeted_true. unfold labels_of at 1. simpl.
    split; intros (label & Hl & Hname).
    - assert (Hn : PR_LABEL env ∈ (Label.name <$> labels_of context)).
      { apply Hsame. apply list_elem_of_fmap. exists label. now split. }
      apply list_elem_of_fmap in Hn as (label' & Hname' & Hl'). now exists label'.
    - assert (Hn : PR_LABEL env ∈ (Label.name <$> labels)).
      { apply Hsame. apply list_elem_of_fmap. exists label. now split. }
      apply list_elem_of_fmap in Hn as (label' & Hname' & Hl'). now exists label'. }
  destruct (isTargeted env (with_labels labels context));
    destruct (isTargeted env context); try reflexivity.
  - symmetry. now apply Hiff.
  - now apply Hiff.
Qed.

(** X9.  A reopened event that passes [isTargeted] produces one message
    with one amber attachment titled "Reopened #N - <title>", with the
    name, icon and link of the sender, the repository as footer and the
    time the pull request was created (not the time it was reopened); the
    handler writes no line to the log. *)
Theorem reopened_event context w :
  Context.name context = "pull_request.reopened" ->
  isTargeted env context = true ->
  let pr := Payload.pull_request (Context.payload context) in
  let sender := Payload.sender (Context.payload context) in
  exists attachment,
    sent (receive env context w).1 = sent w ++ [attachment_message attachment]
    /\ Attachment.title attachment
       = Some ("Reopened #" +:+ JS.of_number (PullRequest.number pr) +:+ " - "
               +:+ PullRequest.title pr)
    /\ Attachment.color attachment = Some "#FFC107"
    /\ Attachment.author_name attachment = Some (User.login sender)
    /\ Attachment.author_icon attachment = Some (User.avatar_url sender)
    /\ Attachment.author_link attachment = Some (User.html_url sender)
    /\ Attachment.title_link attachment = Some (PullRequest.html_url pr)
    /\ Attachment.footer attachment
       = Some (Repository.full_name (Payload.repository (Context.payload context)))
    /\ Attachment.ts attachment = Date.seconds_of (Some (PullRequest.created_at pr))
    /\ Attachment.text attachment = None
    /\ app_log (receive env context w).1 = app_log w
    /\ (receive env context w).2 = Normal.
Proof.
  intros Hname Ht pr sender. subst pr sender.
  rewrite receive_reopened by assumption. unfold handleReopened. rewrite Ht. simpl.
  eexists. rewrite sent_sendSlackMessage, sendSlackMessage_returns.
  split; [reflexivity|]. repeat split.
Qed.

(** X10.  An event under any other name than the four registered ones
    is ignored: the world stays as it was. *)
Theorem unregistered_event_ignored context w :
  Context.name context <> "pull_request.labeled" ->
  Context.name context <> "pull_request.closed" ->
  Context.name context <> "pull_request.reopened" ->
  Context.name context <> "pull_request_review.submitted" ->
  receive env context w = (w, Normal).
Proof.
  intros H1 H2 H3 H4. unfold receive, handlers. cbn [find_handler].
  rewrite String.eqb_sym, (proj2 (String.eqb_neq _ _) H1).
  rewrite String.eqb_sym, (proj2 (String.eqb_neq _ _) H2).
  rewrite String.eqb_sym, (proj2 (String.eqb_neq _ _) H3).
  rewrite String.eqb_sym, (proj2 (String.eqb_neq _ _) H4).
  reflexivity.
Qed.

(** What a handler does to the world: nothing, or at most one line of
    log and then one call of the notifier. *)
Lemma receive_effects context w :
  (exists c, receive env context w = (w, c))
  \/ (exists msg w2,
         receive env context w = (sendSlackMessage env msg w2, Normal)
         /\ (w2 = w \/ exists line, w2 = app_log_line line w)).
Proof.
  unfold receive, handlers. cbn [find_handler].
  repeat match goal with
         | |- context [String.eqb ?a (Context.name context)] =>
             destruct (String.eqb a (Context.name context))
         end;
    [unfold handleLabeled | unfold handleClosed | unfold handleReopened
     | unfold handleReviewSubmitted | left; eexists; reflexivity];
    repeat match goal with
           | |- context [if ?b then _ else _] => destruct b
           | |- context [match ?x with Some _ => _ | None => _ end] => destruct x
           end;
    first [ left; eexists; reflexivity
          | right; eexists _, _; split;
            [reflexivity | first [left; reflexivity | right; eexists; reflexivity]] ].
Qed.

(** X11.  A handler only adds to the world.  It prints nothing to the
    console, adds at most one line to the log, issues listing calls only
    (no post before a workspace has answered), leaves the callbacks that
    wait and the errors recorded so far as they are; and when it throws,
    it has changed nothing at all. *)
Theorem handlers_only_append context w :
  let w' := (receive env context w).1 in
  console w' = console w
  /\ (exists lines, app_log w' = app_log w ++ lines /\ (length lines <= 1)%nat)
  /\ (exists calls, api_calls w' = api_calls w ++ calls /\ posts w' = posts w)
  /\ (exists tasks, pending w' = pending w ++ tasks)
  /\ (forall errors, (errors < length (activations w))%nat ->
                     recorded errors w' = recorded errors w)
  /\ ((receive env context w).2 <> Normal -> w' = w).
Proof.
  destruct (receive_effects context w) as [[c ->] | (msg & w2 & -> & Hw2)]; simpl.
  - split; [reflexivity|].
    split; [exists []; split; [now rewrite app_nil_r | simpl; lia]|].
    split; [exists []; split; [now rewrite app_nil_r | reflexivity]|].
    split; [exists []; now rewrite app_nil_r|]. split; reflexivity.
  - rewrite sendSlackMessage_returns. simpl.
    assert (Hsame : console w2 = console w /\ api_calls w2 = api_calls w
                    /\ pending w2 = pending w /\ activations w2 = activations w
                    /\ exists lines, app_log w2 = app_log w ++ lines
                                     /\ (length lines <= 1)%nat).
    { destruct Hw2 as [-> | [line ->]].
      - do 4 (split; [reflexivity|]). exists [].
        split; [now rewrite app_nil_r | simpl; lia].
      - do 4 (split; [reflexivity|]). exists [line].
        split; [reflexivity | simpl; lia]. }
    destruct Hsame as (Hc & Ha & Hp & Hacts & Hlog).
    rewrite Hc, Ha, Hp, Hacts.
    split; [reflexivity|]. split; [assumption|]. split; [|split; [|split]].
    + eexists. split; [reflexivity|]. unfold posts. simpl.
      rewrite filter_app.
      assert (Hnone : filter is_post (UsersConversations <$> slackClients env) = []).
      { induction (slackClients env) as [|c l IH]; [reflexivity | exact IH]. }
      rewrite Hnone. now rewrite app_nil_r.
    + now eexists.
    + intros errors Herrors. unfold recorded. simpl.
      now rewrite lookup_app_l by assumption.
    + intros H. now contradiction H.
Qed.

End Handlers.

Lemma capital_labels_never_match_witness :
  isTargeted Sample.env
    (Sample.event "pull_request.closed" ["Tuvix"; "Bug"] true None None) = false
  /\ (label_filtered_event "pull_request.closed" ->
      receive Sample.env
        (Sample.event "pull_request.closed" ["Tuvix"; "Bug"] true None None)
        initial_world
      = (initial_world, Normal)).
Proof.
  apply (capital_labels_never_match Sample.env
           (Sample.event "pull_request.closed" ["Tuvix"; "Bug"] true None None)
           initial_world).
  intros label Hl. unfold labels_of in Hl. simpl in Hl.
  repeat (apply elem_of_cons in Hl as [-> | Hl]); try (vm_compute; discriminate).
  inversion Hl.
Defined.

Lemma isTargeted_same_names_witness :
  isTargeted Sample.env
    (with_labels [ {| Label.name := "tuvix" |}; {| Label.name := "bug" |};
                   {| Label.name := "tuvix" |} ]
       (Sample.event "pull_request.closed" ["bug"; "tuvix"] true None None))
  = isTargeted Sample.env
      (Sample.event "pull_request.closed" ["bug"; "tuvix"] true None None).
Proof.
  apply (isTargeted_same_names Sample.env
           (Sample.event "pull_request.closed" ["bug"; "tuvix"] true None None)).
  intros n. unfold labels_of. simpl. rewrite !elem_of_cons, !elem_of_nil. tauto.
Defined.

Lemma reopened_event_witness :
  exists attachment,
    sent (receive Sample.env
            (Sample.event "pull_request.reopened" ["tuvix"] false None None)
            initial_world).1
    = [attachment_message attachment]
    /\ Attachment.title attachment = Some "Reopened #7 - Add sprockets"
    /\ Attachment.color attachment = Some "#FFC107"
    /\ Attachment.author_name attachment = Some "alice"
    /\ Attachment.author_icon attachment = Some "https://avatars.example/alice"
    /\ Attachment.author_link attachment = Some "https://github.com/alice"
    /\ Attachment.title_link attachment = Some "https://github.com/acme/widgets/pull/7"
    /\ Attachment.footer attachment = Some "acme/widgets"
    /\ Attachment.ts attachment = Some (1704067200 # 1)
    /\ Attachment.text attachment = None
    /\ app_log (receive Sample.env
                  (Sample.event "pull_request.reopened" ["tuvix"] false None None)
                  initial_world).1 = []
    /\ (receive Sample.env
          (Sample.event "pull_request.reopened" ["tuvix"] false None None)
          initial_world).2 = Normal.
Proof.
  apply (reopened_event Sample.env
           (Sample.event "pull_request.reopened" ["tuvix"] false None None)
           initial_world).
  - reflexivity.
  - reflexivity.
Defined.

Lemma unregistered_event_ignored_witness :
  receive Sample.env (Sample.event "pull_request.opened" ["tuvix"] false None None)
          initial_world
  = (initial_world, Normal).
Proof.
  apply (unregistered_event_ignored Sample.env
           (Sample.event "pull_request.opened" ["tuvix"] false None None)
           initial_world); discriminate.
Defined.

(** ** The messages of all handlers *)

Section EveryMessage.

Context (env : process_env).

Implicit Types (context : Context.t) (w : world).

Lemma PR_LABEL_of_equal_labels (env' : process_env) :
  equal_ignoring_case (env_PR_LABEL env) (env_PR_LABEL env') ->
  PR_LABEL env = PR_LABEL env'.
Proof. intros H. exact H. Qed.

(** X12.  Only the lower-cased Target Label and the tokens of the
    configuration matter: two configurations with the same tokens whose
    Target Labels are equal up to case make every event do the same. *)
Theorem configuration_case_is_irrelevant (env' : process_env) context w :
  equal_ignoring_case (env_PR_LABEL env) (env_PR_LABEL env') ->
  SLACK_TOKENS env = SLACK_TOKENS env' ->
  receive env context w = receive env' context w.
Proof.
  intros Hlabel%PR_LABEL_of_equal_labels Htokens.
  assert (Hclients : slackClients env = slackClients env').
  { unfold slackClients. now rewrite Htokens. }
  unfold receive, handlers. cbn [find_handler].
  repeat match goal with
         | |- context [String.eqb ?a (Context.name context)] =>
             destruct (String.eqb a (Context.name context))
         end; try reflexivity;
    unfold handleLabeled, handleClosed, handleReopened, handleReviewSubmitted,
      isTargeted, sendSlackMessage;
    rewrite Hlabel, Hclients; reflexivity.
Qed.

(** X13.  Whatever event produces a message, the message has no
    [channel] yet and exactly one attachment, and that attachment has its
    colour, author name, icon and link, title, link, footer and footer
    icon all assigned; the footer is the full name of the repository and
    the link is that of the pull request. *)
Theorem every_message_is_filled_in context w msg :
  sent (receive env context w).1 = sent w ++ [msg] ->
  Message.channel msg = None
  /\ exists attachment,
      Message.attachments msg = [attachment]
      /\ filled_in attachment
      /\ Attachment.footer attachment
         = Some (Repository.full_name (Payload.repository (Context.payload context)))
      /\ Attachment.title_link attachment
         = Some (PullRequest.html_url (Payload.pull_request (Context.payload context))).
Proof.
  unfold receive, handlers. cbn [find_handler].
  repeat match goal with
         | |- context [String.eqb ?a (Context.name context)] =>
             destruct (String.eqb a (Context.name context))
         end;
    [unfold handleLabeled | unfold handleClosed | unfold handleReopened
     | unfold handleReviewSubmitted | ];
    repeat match goal with
           | |- context [isTargeted env context] => destruct (isTargeted env context)
           | |- context [String.eqb (Review.state ?r) ?s] =>
               destruct (String.eqb (Review.state r) s)
           | |- context [if negb (String.eqb ?a ?b) then _ else _] =>
               destruct (String.eqb a b)
           | |- context [if PullRequest.merged ?p then _ else _] =>
               destruct (PullRequest.merged p)
           | |- context [match ?x with Some _ => _ | None => _ end] => destruct x
           end;
    simpl; rewrite ?sent_sendSlackMessage; intros H;
    try (now apply sent_grows in H);
    apply app_inv_head in H; injection H as <-;
    (split; [reflexivity|]); eexists; (split; [reflexivity|]);
    unfold filled_in; simpl; repeat split; eauto.
Qed.

End EveryMessage.

Lemma configuration_case_is_irrelevant_witness :
  receive Sample.env
    (Sample.event "pull_request.labeled" [] false (Some "tuvix") None) initial_world
  = receive {| SLACK_TOKENS := ["xoxb-first"; "xoxb-second"]; env_PR_LABEL := "TUVIX" |}
      (Sample.event "pull_request.labeled" [] false (Some "tuvix") None) initial_world.
Proof.
  apply (configuration_case_is_irrelevant Sample.env
           {| SLACK_TOKENS := ["xoxb-first"; "xoxb-second"]; env_PR_LABEL := "TUVIX" |}).
  - reflexivity.
  - reflexivity.
Defined.

Lemma every_message_is_filled_in_witness :
  let context :=
    Sample.event "pull_request_review.submitted" ["tuvix"] false None
                 (Some (Sample.review "approved" "fine")) in
  let msg := default Sample.hello (head (sent (receive Sample.env context initial_world).1)) in
  Message.channel msg = None
  /\ exists attachment,
      Message.attachments msg = [attachment]
      /\ filled_in attachment
      /\ Attachment.footer attachment = Some "acme/widgets"
      /\ Attachment.title_link attachment = Some "https://github.com/acme/widgets/pull/7".
Proof.
  apply (every_message_is_filled_in Sample.env
           (Sample.event "pull_request_review.submitted" ["tuvix"] false None
                         (Some (Sample.review "approved" "fine")))
           initial_world).
  reflexivity.
Defined.

(** ** The job queue, turn by turn *)

Section Turns.

Context (env : process_env) (slack : slack_api).

Implicit Types (w : world) (schedule : list nat).

Lemma no_turns_left w : pending w = [] -> turns_left slack w = 0%nat.
Proof. intros H. unfold turns_left. now rewrite H. Qed.

Lemma step_turns_le i w : (turns_left slack w <= S (turns_left slack (step slack i w)))%nat.
Proof.
  destruct (pending w !! i) as [t|] eqn:Hi.
  - rewrite (step_turns slack i w t Hi). lia.
  - unfold step. rewrite Hi. lia.
Qed.

Lemma run_turns_le schedule w :
  (turns_left slack w <= length schedule + turns_left slack (run slack schedule w))%nat.
Proof.
  revert w; induction schedule as [|i schedule IH]; intros w; simpl; [lia|].
  fold (run slack schedule (step slack i w)).
  pose proof (step_turns_le i w). pose proof (IH (step slack i w)). lia.
Qed.

Lemma clients_turns e msg (clients : list WebClient) :
  sum_list_with (turns slack) (AwaitChannels e msg <$> clients)
  = (length clients + sum_list_with (channels_listed slack) clients)%nat.
Proof.
  induction clients as [|c clients IH]; [reflexivity|].
  rewrite fmap_cons. simpl. rewrite IH. unfold getChannels, channels_listed.
  destruct (users_conversations slack (token c)); lia.
Qed.

Lemma posts_due_length msg (clients : list WebClient) :
  length (clients ≫= posts_due slack msg) = sum_list_with (channels_listed slack) clients.
Proof.
  induction clients as [|c clients IH]; [reflexivity|].
  rewrite bind_cons, length_app, IH. simpl. f_equal.
  unfold posts_due, getChannels, channels_listed.
  destruct (users_conversations slack (token c)); simpl; try reflexivity.
  apply length_fmap.
Qed.

Lemma omap_length_le {A B : Type} (f : A -> option B) (l : list A) :
  (length (omap f l) <= length l)%nat.
Proof.
  unfold omap. induction l as [|a l IH]; simpl; [lia|]. destruct (f a); simpl; lia.
Qed.

Lemma errors_due_length msg (clients : list WebClient) :
  (length (clients ≫= errors_due slack msg)
   <= length clients + sum_list_with (channels_listed slack) clients)%nat.
Proof.
  induction clients as [|c clients IH]; [reflexivity|].
  rewrite bind_cons, length_app. simpl.
  assert (H : (length (errors_due slack msg c) <= 1 + channels_listed slack c)%nat).
  { unfold errors_due, getChannels, channels_listed.
    destruct (users_conversations slack (token c)) as [channels| |]; simpl; try lia.
    pose proof (omap_length_le
                  (fun ch => post_failure slack c ch
                               (Message.with_channel msg (Channel.id ch))) channels).
    lia. }
  lia.
Qed.

(** X14.  The number of turns a call of the notifier needs is the
    number of Slack calls it leads to, one per workspace and one per
    channel listed: resuming the first waiting callback that many times
    leaves nothing waiting, and no shorter schedule does. *)
Theorem fan_out_turns msg w :
  pending w = [] ->
  let n := (length (SLACK_TOKENS env)
            + sum_list_with (channels_listed slack) (slackClients env))%nat in
  pending (run slack (replicate n 0%nat) (sendSlackMessage env msg w)) = []
  /\ (forall schedule,
         pending (run slack schedule (sendSlackMessage env msg w)) = [] ->
         (n <= length schedule)%nat).
Proof.
  intros Hw n.
  assert (Hn : turns_left slack (sendSlackMessage env msg w) = n).
  { rewrite sendSlackMessage_returns. unfold turns_left. simpl. rewrite Hw. simpl.
    rewrite clients_turns. subst n. unfold slackClients at 1. now rewrite length_map. }
  split.
  - rewrite <- Hn. apply run_drains.
  - intros schedule Hdone.
    pose proof (run_turns_le schedule (sendSlackMessage env msg w)) as Hle.
    rewrite (no_turns_left _ Hdone) in Hle. lia.
Qed.

(** X15.  Once nothing waits, the notifier has made exactly one
    listing call per configured token and one post per channel listed,
    and has recorded at most one error per call. *)
Theorem fan_out_counts msg schedule w :
  pending w = [] ->
  let w' := run slack schedule (sendSlackMessage env msg w) in
  pending w' = [] ->
  length (api_calls w')
  = (length (api_calls w) + length (SLACK_TOKENS env)
     + sum_list_with (channels_listed slack) (slackClients env))%nat
  /\ (length (recorded (length (activations w)) w')
      <= length (SLACK_TOKENS env)
         + sum_list_with (channels_listed slack) (slackClients env))%nat.
Proof.
  intros Hw w' Hw'.
  destruct (fan_out_complete env slack msg schedule w Hw Hw')
    as (Hcalls & Herrors & _ & _).
  fold w' in Hcalls, Herrors.
  assert (Hclients : length (slackClients env) = length (SLACK_TOKENS env)).
  { unfold slackClients. apply length_map. }
  split.
  - rewrite Hcalls, !length_app, length_fmap, posts_due_length, Hclients. lia.
  - rewrite Herrors. rewrite <- Hclients. apply errors_due_length.
Qed.

End Turns.

Lemma fan_out_turns_witness :
  pending (run Sample.slack [0; 0; 0; 0]%nat
               (sendSlackMessage Sample.env Sample.hello initial_world)) = []
  /\ (forall schedule,
         pending (run Sample.slack schedule
                      (sendSlackMessage Sample.env Sample.hello initial_world)) = [] ->
         (4 <= length schedule)%nat).
Proof.
  apply (fan_out_turns Sample.env Sample.slack Sample.hello initial_world).
  reflexivity.
Defined.

Lemma fan_out_counts_witness :
  let w' := run Sample.slack [1; 1; 0; 0]%nat
                (sendSlackMessage Sample.env Sample.hello initial_world) in
  length (api_calls w') = 4%nat /\ (length (recorded 0 w') <= 4)%nat.
Proof.
  apply (fan_out_counts Sample.env Sample.slack Sample.hello [1; 1; 0; 0]%nat
                        initial_world).
  - reflexivity.
  - reflexivity.
Defined.

(** ** The outcome of a fan-out *)

Section Outcome.

Context (env : process_env) (slack : slack_api).

Implicit Types (w : world) (schedule : list nat).

(** X16.  The order in which the workspaces answer does not matter for
    the outcome: two runs of the same call of the notifier that both end
    with nothing waiting have made the same calls and recorded the same
    errors, up to their order, have handed over the same messages and
    have printed the same. *)
Theorem order_of_answers_is_irrelevant msg schedule1 schedule2 w :
  pending w = [] ->
  let w1 := run slack schedule1 (sendSlackMessage env msg w) in
  let w2 := run slack schedule2 (sendSlackMessage env msg w) in
  pending w1 = [] -> pending w2 = [] ->
  api_calls w1 ≡ₚ api_calls w2
  /\ recorded (length (activations w)) w1 ≡ₚ recorded (length (activations w)) w2
  /\ sent w1 = sent w2
  /\ console w1 = console w2.
Proof.
  intros Hw w1 w2 H1 H2.
  destruct (fan_out_complete env slack msg schedule1 w Hw H1) as (Hc1 & He1 & Hp1 & Hs1).
  destruct (fan_out_complete env slack msg schedule2 w Hw H2) as (Hc2 & He2 & Hp2 & Hs2).
  fold w1 in Hc1, He1, Hp1, Hs1. fold w2 in Hc2, He2, Hp2, Hs2.
  split; [now rewrite Hc1, Hc2|]. split; [now rewrite He1, He2|].
  split; congruence.
Qed.

Lemma errors_due_none msg client :
  errors_due slack msg client = [] <-> all_delivered slack msg client.
Proof.
  unfold errors_due, getChannels, all_delivered.
  destruct (users_conversations slack (token client)) as [channels|error|reason].
  - split.
    + intros Hnone. exists channels. split; [reflexivity|]. intros channel Hch.
      destruct (chat_postMessage slack (token client)
                  (Message.with_channel msg (Channel.id channel))) as [[]| |] eqn:Hpost;
        [reflexivity| |];
        exfalso;
        eapply (elem_of_nil (A := logged)); rewrite <- Hnone;
        apply list_elem_of_omap; exists channel; (split; [assumption|]);
        unfold post_failure; rewrite Hpost; reflexivity.
    + intros (channels' & [= <-] & Hall).
      destruct (omap _ channels) as [|v l] eqn:Homap; [reflexivity|].
      assert (Hv : v ∈ omap (fun ch => post_failure slack client ch
                                         (Message.with_channel msg (Channel.id ch)))
                        channels).
      { rewrite Homap. left. }
      apply list_elem_of_omap in Hv as (channel & Hch & Hfail).
      unfold post_failure in Hfail. now rewrite (Hall channel Hch) in Hfail.
  - split; [discriminate|]. now intros (channels & Hch & _).
  - split; [discriminate|]. now intros (channels & Hch & _).
Qed.

Lemma errors_due_none_all msg (clients : list WebClient) :
  (forall client, client ∈ clients -> errors_due slack msg client = []) ->
  clients ≫= errors_due slack msg = [].
Proof.
  induction clients as [|c l IH]; intros Hall; [reflexivity|].
  rewrite bind_cons, (Hall c) by left. apply IH.
  intros client Hclient. apply Hall. now right.
Qed.

(** X17.  Once nothing waits, the array of errors is empty exactly when
    every configured workspace listed its channels and every post to a
    listed channel was accepted. *)
Theorem no_error_means_delivered msg schedule w :
  pending w = [] ->
  let w' := run slack schedule (sendSlackMessage env msg w) in
  pending w' = [] ->
  recorded (length (activations w)) w' = []
  <-> forall client, client ∈ slackClients env -> all_delivered slack msg client.
Proof.
  intros Hw w' Hw'.
  destruct (fan_out_complete env slack msg schedule w Hw Hw') as (_ & Herrors & _ & _).
  fold w' in Herrors. split.
  - intros Hnone client Hclient. rewrite Hnone in Herrors.
    apply Permutation_nil_l in Herrors. apply errors_due_none.
    destruct (errors_due slack msg client) as [|v l] eqn:Hdue; [reflexivity|].
    exfalso. eapply (elem_of_nil (A := logged)). rewrite Herrors.
    apply list_elem_of_bind. exists client. split; [|assumption].
    rewrite Hdue. left.
  - intros Hall.
    assert (Hdue : slackClients env ≫= errors_due slack msg = []).
    { apply errors_due_none_all. intros client Hclient.
      now apply errors_due_none, Hall. }
    rewrite Hdue in Herrors. now apply Permutation_nil_r in Herrors.
Qed.

(** X18.  With no token configured every handler still runs, but no
    Slack call is ever made and nothing is left waiting: the message is
    built and dropped. *)
Theorem no_workspace_no_call (context : Context.t) schedule w :
  SLACK_TOKENS env = [] ->
  pending w = [] ->
  let w' := run slack schedule (receive env context w).1 in
  api_calls w' = api_calls w /\ pending w' = [] /\ console w' = console w.
Proof.
  intros Htokens Hw w'. subst w'.
  destruct (receive_effects env context w) as [[c ->] | (msg & w2 & -> & Hw2)]; simpl.
  - rewrite run_idle by assumption. now repeat split.
  - assert (Hsame : api_calls w2 = api_calls w /\ pending w2 = pending w
                    /\ console w2 = console w).
    { destruct Hw2 as [-> | [line ->]]; now repeat split. }
    destruct Hsame as (Ha & Hp & Hc).
    assert (Hidle : pending (sendSlackMessage env msg w2) = []).
    { rewrite sendSlackMessage_returns. simpl. unfold slackClients.
      rewrite Htokens, Hp, Hw. reflexivity. }
    rewrite run_idle by assumption. rewrite sendSlackMessage_returns. simpl.
    unfold slackClients. rewrite Htokens, Ha, Hp, Hc, Hw. simpl.
    now rewrite app_nil_r.
Qed.

End Outcome.

Lemma order_of_answers_is_irrelevant_witness :
  let w1 := run Sample.slack [0; 0; 0; 0]%nat
                (sendSlackMessage Sample.env Sample.hello initial_world) in
  let w2 := run Sample.slack [1; 2; 1; 0]%nat
                (sendSlackMessage Sample.env Sample.hello initial_world) in
  api_calls w1 ≡ₚ api_calls w2
  /\ recorded 0 w1 ≡ₚ recorded 0 w2
  /\ sent w1 = sent w2
  /\ console w1 = console w2.
Proof.
  apply (order_of_answers_is_irrelevant Sample.env Sample.slack Sample.hello
           [0; 0; 0; 0]%nat [1; 2; 1; 0]%nat initial_world).
  - reflexivity.
  - reflexivity.
  - reflexivity.
Defined.

Lemma no_error_means_delivered_witness :
  let w' := run Sample.slack [0; 0; 0; 0]%nat
                (sendSlackMessage Sample.env Sample.hello initial_world) in
  recorded 0 w' = []
  <-> forall client, client ∈ slackClients Sample.env ->
                     all_delivered Sample.slack Sample.hello client.
Proof.
  apply (no_error_means_delivered Sample.env Sample.slack Sample.hello
           [0; 0; 0; 0]%nat initial_world).
  - reflexivity.
  - reflexivity.
Defined.

Lemma no_workspace_no_call_witness :
  let env := {| SLACK_TOKENS := []; env_PR_LABEL := "tuvix" |} in
  let w' := run Sample.slack [0; 1]%nat
                (receive env
                   (Sample.event "pull_request.reopened" ["tuvix"] false None None)
                   initial_world).1 in
  api_calls w' = [] /\ pending w' = [] /\ console w' = [].
Proof.
  apply (no_workspace_no_call {| SLACK_TOKENS := []; env_PR_LABEL := "tuvix" |}
           Sample.slack
           (Sample.event "pull_request.reopened" ["tuvix"] false None None)
           [0; 1]%nat initial_world).
  - reflexivity.
  - reflexivity.
Defined.

(** ** Two calls of the notifier at once *)

Section TwoCalls.

Context (env : process_env) (slack : slack_api).

Implicit Types (w : world) (schedule : list nat).

Lemma clients_outstanding_errors_other e e' msg (clients : list WebClient) :
  e <> e' ->
  (AwaitChannels e msg <$> clients) ≫= outstanding_errors slack e' = [].
Proof.
  intros Hne. induction clients as [|c clients IH]; [reflexivity|].
  rewrite fmap_cons, bind_cons, IH. simpl. now rewrite decide_False.
Qed.

(** X19.  Two messages whose fan-outs are under way at the same time do
    not mix: each call of the notifier has its own array, and once
    nothing waits, whatever the order of the answers, the array of the
    first call holds the errors of the first message and the array of the
    second call those of the second. *)
Theorem errors_stay_with_their_call msg1 msg2 schedule w :
  pending w = [] ->
  let first := length (activations w) in
  let w' := run slack schedule
                (sendSlackMessage env msg2 (sendSlackMessage env msg1 w)) in
  pending w' = [] ->
  recorded first w' ≡ₚ slackClients env ≫= errors_due slack msg1
  /\ recorded (S first) w' ≡ₚ slackClients env ≫= errors_due slack msg2
  /\ sent w' = sent w ++ [msg1; msg2].
Proof.
  intros Hw first w' Hw'. subst w'.
  rewrite !sendSlackMessage_returns in Hw' |- *. simpl in Hw' |- *.
  rewrite Hw in Hw' |- *. simpl app in Hw' |- *.
  rewrite length_app in Hw' |- *. simpl length in Hw' |- *.
  rewrite Nat.add_1_r in Hw' |- *. fold first in Hw' |- *.
  set (w2 := {| app_log := app_log w; console := console w;
                api_calls := (api_calls w ++ (UsersConversations <$> slackClients env))
                             ++ (UsersConversations <$> slackClients env);
                activations := (activations w ++ [{| act_msg := msg1; act_errors := [] |}])
                               ++ [{| act_msg := msg2; act_errors := [] |}];
                pending := (AwaitChannels first msg1 <$> slackClients env)
                           ++ (AwaitChannels (S first) msg2 <$> slackClients env) |})
    in *.
  assert (Hwf : well_formed w2).
  { unfold well_formed. subst w2. simpl. rewrite !length_app. simpl.
    apply Forall_app. split; apply Forall_fmap, Forall_forall; intros c _; simpl;
      subst first; lia. }
  assert (Hboth : forall e,
             recorded e (run slack schedule w2)
             ≡ₚ recorded e w2 ++ (pending w2 ≫= outstanding_errors slack e)).
  { intros e. pose proof (run_errors slack e schedule w2 Hwf) as H.
    now rewrite Hw', app_nil_r in H. }
  split; [|split].
  - rewrite Hboth. subst w2. unfold recorded. simpl.
    rewrite lookup_app_l by (rewrite length_app; simpl; lia).
    rewrite lookup_app_r by (subst first; lia).
    replace (first - length (activations w))%nat with 0%nat by (subst first; lia).
    simpl. rewrite bind_app, clients_outstanding_errors.
    rewrite clients_outstanding_errors_other by lia. now rewrite app_nil_r.
  - rewrite Hboth. subst w2. unfold recorded. simpl.
    rewrite lookup_app_r by (rewrite length_app; simpl; subst first; lia).
    replace (S first - length (activations w ++ [{| act_msg := msg1; act_errors := [] |}]))%nat
      with 0%nat by (rewrite length_app; simpl; subst first; lia).
    simpl. rewrite bind_app, clients_outstanding_errors.
    rewrite clients_outstanding_errors_other by lia. reflexivity.
  - rewrite run_sent. subst w2. unfold sent. simpl.
    rewrite !fmap_app. simpl. now rewrite <- app_assoc.
Qed.

End TwoCalls.

Lemma errors_stay_with_their_call_witness :
  let other :=
    {| Message.text := Some "other"; Message.blocks := None;
       Message.attachments := []; Message.channel := None |} in
  let w' := run Sample.slack [0; 0; 0; 0; 0; 0; 0; 0]%nat
                (sendSlackMessage Sample.env other
                   (sendSlackMessage Sample.env Sample.hello initial_world)) in
  recorded 0 w' ≡ₚ slackClients Sample.env ≫= errors_due Sample.slack Sample.hello
  /\ recorded 1 w' ≡ₚ slackClients Sample.env ≫= errors_due Sample.slack other
  /\ sent w' = [Sample.hello; other].
Proof.
  apply (errors_stay_with_their_call Sample.env Sample.slack Sample.hello
           {| Message.text := Some "other"; Message.blocks := None;
              Message.attachments := []; Message.channel := None |}
           [0; 0; 0; 0; 0; 0; 0; 0]%nat initial_world).
  - reflexivity.
  - reflexivity.
Defined.

(** ** What a turn of the job queue leaves alone *)

Section TurnsAppend.

Context (slack : slack_api).

Implicit Types (w : world) (schedule : list nat).

Lemma resume_appends t w :
  (exists calls, api_calls (resume slack t w) = api_calls w ++ calls
                 /\ Forall (fun c => is_post c = true) calls)
  /\ (forall errors, exists more,
         recorded errors (resume slack t w) = recorded errors w ++ more).
Proof.
  assert (Hpush : forall e v,
             (exists calls, api_calls (errors_push e v w) = api_calls w ++ calls
                            /\ Forall (fun c => is_post c = true) calls)
             /\ (forall errors, exists more,
                    recorded errors (errors_push e v w) = recorded errors w ++ more)).
  { intros e v. split.
    - exists []. split; [simpl; now rewrite app_nil_r | constructor].
    - intros errors. rewrite recorded_push.
      destruct (decide _); [now exists [v] | exists []; now rewrite app_nil_r]. }
  assert (Hsame : (exists calls, api_calls w = api_calls w ++ calls
                                 /\ Forall (fun c => is_post c = true) calls)
                  /\ (forall errors, exists more,
                         recorded errors w = recorded errors w ++ more)).
  { split; [exists []; split; [now rewrite app_nil_r | constructor]|].
    intros errors. exists []. now rewrite app_nil_r. }
  destruct t as [e msg c | e c ch m]; simpl.
  - destruct (getChannels slack c) as [err|channels]; [apply Hpush|].
    rewrite post_to_channel_all. split.
    + eexists. split; [reflexivity|]. apply Forall_fmap, Forall_forall.
      intros ch _. reflexivity.
    + intros errors. exists []. unfold recorded. simpl. now rewrite app_nil_r.
  - destruct (chat_postMessage slack (token c) m); [exact Hsame | apply Hpush..].
Qed.

Lemma step_appends i w :
  (exists calls, api_calls (step slack i w) = api_calls w ++ calls
                 /\ Forall (fun c => is_post c = true) calls)
  /\ (forall errors, exists more,
         recorded errors (step slack i w) = recorded errors w ++ more).
Proof.
  unfold step. destruct (pending w !! i) as [t|].
  - apply (resume_appends t (set_pending (delete i) w)).
  - split; [exists []; split; [now rewrite app_nil_r | constructor]|].
    intros errors. exists []. now rewrite app_nil_r.
Qed.

(** X20.  The turns of the job queue only add.  Every call made before
    is still there, in its place, and what is added are posts only: a
    listing is never asked for a second time and nothing is retried.
    Every error recorded before is still there, in its place. *)
Theorem turns_only_append schedule w :
  (exists calls, api_calls (run slack schedule w) = api_calls w ++ calls
                 /\ Forall (fun c => is_post c = true) calls)
  /\ (forall errors, exists more,
         recorded errors (run slack schedule w) = recorded errors w ++ more).
Proof.
  revert w; induction schedule as [|i schedule IH]; intros w.
  - split; [exists []; split; [now rewrite app_nil_r | constructor]|].
    intros errors. exists []. now rewrite app_nil_r.
  - simpl. fold (run slack schedule (step slack i w)).
    destruct (IH (step slack i w)) as ((calls2 & Hc2 & Hp2) & He2).
    destruct (step_appends i w) as ((calls1 & Hc1 & Hp1) & He1).
    split.
    + exists (calls1 ++ calls2). split.
      * now rewrite Hc2, Hc1, app_assoc.
      * now apply Forall_app.
    + intros errors. destruct (He2 errors) as [more2 Hm2].
      destruct (He1 errors) as [more1 Hm1].
      exists (more1 ++ more2). now rewrite Hm2, Hm1, app_assoc.
Qed.

End TurnsAppend.

(** ** Start-up *)

(** X21.  The process starts only when both variables are set and not
    empty, and then the Target Label is not empty and is its own
    lower-casing; otherwise it exits with code 1 after one line, that of
    [SLACK_TOKENS] whenever [SLACK_TOKENS] is missing or empty, also when
    [PR_LABEL] is missing too. *)
Theorem start_up_checks (tokens label : option string) :
  (forall l, start_up tokens label = Started l ->
             (exists t, tokens = Some t /\ t <> EmptyString)
             /\ (exists v, label = Some v /\ v <> EmptyString /\ l = JS.toLowerCase v)
             /\ l <> EmptyString /\ JS.toLowerCase l = l)
  /\ (forall code printed, start_up tokens label = Exit code printed ->
         code = 1
         /\ (not_set tokens = true ->
             printed = ["Missing SLACK_TOKENS environment variable!"])
         /\ (not_set tokens = false ->
             not_set label = true
             /\ printed = ["Missing PR_LABEL environment variable!"])).
Proof.
  unfold start_up. split.
  - intros l Hl.
    destruct tokens as [t|]; simpl in Hl; [|discriminate].
    destruct (String.eqb_spec t EmptyString) as [|Ht]; [discriminate|].
    destruct label as [v|]; simpl in Hl; [|discriminate].
    destruct (String.eqb_spec v EmptyString) as [|Hv]; [discriminate|].
    injection Hl as <-. split; [now exists t|]. split; [now exists v|].
    split; [|apply toLowerCase_idempotent].
    destruct v; [contradiction | discriminate].
  - intros code printed Hexit.
    destruct (not_set tokens) eqn:Ht.
    + injection Hexit as <- <-. split; [reflexivity|]. split; [reflexivity | discriminate].
    + destruct (not_set label) eqn:Hl; [|discriminate].
      injection Hexit as <- <-. split; [reflexivity|].
      split; [discriminate | now split].
Qed.

Lemma start_up_checks_witness :
  "tuvix" <> EmptyString /\ JS.toLowerCase "tuvix" = "tuvix".
Proof.
  destruct (proj1 (start_up_checks (Some "[]") (Some "Tuvix")) "tuvix" eq_refl)
    as (_ & _ & H).
  exact H.
Defined.

(** ** Payloads with a part missing *)

Section MissingParts.

Context (env : process_env).

Implicit Types (context : Context.t) (w : world).

(** X22.  What the handlers do when a part of the payload is missing.
    A labeled event without [label] throws.  A closed event that passes
    the filter and is merged but has no [merged_by] throws, before the
    log line is written.  A review-submitted event without [review]
    throws only if the pull request passes the filter, which is checked
    first.  In all these cases the world is as it was.  A closed event
    that is not merged and has no [closed_at] is sent all the same, with
    the time 0. *)
Theorem missing_payload_parts context w :
  (Payload.label (Context.payload context) = None ->
   handleLabeled env context w = (w, TypeError))
  /\ (isTargeted env context = true ->
      PullRequest.merged (Payload.pull_request (Context.payload context)) = true ->
      PullRequest.merged_by (Payload.pull_request (Context.payload context)) = None ->
      handleClosed env context w = (w, TypeError))
  /\ (Payload.review (Context.payload context) = None ->
      handleReviewSubmitted env context w
      = (w, if isTargeted env context then TypeError else Normal))
  /\ (isTargeted env context = true ->
      PullRequest.merged (Payload.pull_request (Context.payload context)) = false ->
      PullRequest.closed_at (Payload.pull_request (Context.payload context)) = None ->
      exists attachment,
        sent (handleClosed env context w).1 = sent w ++ [attachment_message attachment]
        /\ Attachment.ts attachment = Some (0 # 1)).
Proof.
  split; [|split; [|split]].
  - intros Hl. unfold handleLabeled. now rewrite Hl.
  - intros Ht Hm Hby. unfold handleClosed. now rewrite Ht, Hm, Hby.
  - intros Hr. unfold handleReviewSubmitted.
    destruct (isTargeted env context); simpl; [now rewrite Hr | reflexivity].
  - intros Ht Hm Hat. unfold handleClosed. rewrite Ht, Hm, Hat. simpl.
    eexists. rewrite sent_sendSlackMessage. split; reflexivity.
Qed.

(** X23.  The message of a labeled event whose label matches: its
    attachment is titled "#N - <title>" and carries the name, icon and
    link of the author of the pull request, not of the sender who is
    named in the block; it links to the pull request and has the
    repository as footer.  The handler writes one line to the log, with
    the Target Label in lower case between double quotes. *)
Theorem labeled_attachment context w label :
  Payload.label (Context.payload context) = Some label ->
  equal_ignoring_case (Label.name label) (env_PR_LABEL env) ->
  let pr := Payload.pull_request (Context.payload context) in
  let author := PullRequest.user pr in
  exists msg attachment,
    sent (handleLabeled env context w).1 = sent w ++ [msg]
    /\ Message.attachments msg = [attachment]
    /\ Message.text msg = None
    /\ Attachment.title attachment
       = Some ("#" +:+ JS.of_number (PullRequest.number pr) +:+ " - "
               +:+ PullRequest.title pr)
    /\ Attachment.author_name attachment = Some (User.login author)
    /\ Attachment.author_icon attachment = Some (User.avatar_url author)
    /\ Attachment.author_link attachment = Some (User.html_url author)
    /\ Attachment.title_link attachment = Some (PullRequest.html_url pr)
    /\ Attachment.footer attachment
       = Some (Repository.full_name (Payload.repository (Context.payload context)))
    /\ Attachment.text attachment = None
    /\ app_log (handleLabeled env context w).1
       = app_log w ++ ["New " +:+ JS.quote +:+ JS.toLowerCase (env_PR_LABEL env)
                       +:+ JS.quote +:+ " labeled PR detected!"].
Proof.
  intros Hlabel Heq pr author. subst pr author. unfold handleLabeled. rewrite Hlabel.
  destruct (String.eqb_spec (JS.toLowerCase (Label.name label)) (PR_LABEL env));
    [|contradiction].
  simpl. eexists _, _. rewrite sent_sendSlackMessage, sendSlackMessage_returns.
  split; [reflexivity|]. split; [reflexivity|]. repeat split.
Qed.

End MissingParts.

Lemma missing_payload_parts_witness :
  handleClosed Sample.env
    {| Context.name := "pull_request.closed";
       Context.payload :=
         {| Payload.pull_request :=
              {| PullRequest.html_url := "https://github.com/acme/widgets/pull/7";
                 PullRequest.title := "Add sprockets";
                 PullRequest.number := 7;
                 PullRequest.created_at := "2024-01-01T00:00:00.000Z";
                 PullRequest.closed_at := Some "2024-01-02T10:20:30Z";
                 PullRequest.merged_at := Some "2024-01-02T10:20:30Z";
                 PullRequest.merged_by := None;
                 PullRequest.merged := true;
                 PullRequest.base_ref := "main";
                 PullRequest.user := Sample.alice;
                 PullRequest.labels := [ {| Label.name := "tuvix" |} ] |};
            Payload.repository := Sample.repo;
            Payload.sender := Sample.alice;
            Payload.label := None;
            Payload.review := None |} |}
    initial_world
  = (initial_world, TypeError).
Proof.
  apply (proj1 (proj2 (missing_payload_parts Sample.env _ initial_world)));
    reflexivity.
Defined.

Lemma labeled_attachment_witness :
  exists msg attachment,
    sent (handleLabeled Sample.env
            (Sample.event "pull_request.labeled" [] false (Some "TUVIX") None)
            initial_world).1 = [msg]
    /\ Message.attachments msg = [attachment]
    /\ Message.text msg = None
    /\ Attachment.title attachment = Some "#7 - Add sprockets"
    /\ Attachment.author_name attachment = Some "alice"
    /\ Attachment.author_icon attachment = Some "https://avatars.example/alice"
    /\ Attachment.author_link attachment = Some "https://github.com/alice"
    /\ Attachment.title_link attachment = Some "https://github.com/acme/widgets/pull/7"
    /\ Attachment.footer attachment = Some "acme/widgets"
    /\ Attachment.text attachment = None
    /\ app_log (handleLabeled Sample.env
                  (Sample.event "pull_request.labeled" [] false (Some "TUVIX") None)
                  initial_world).1
       = ["New " +:+ JS.quote +:+ "tuvix" +:+ JS.quote +:+ " labeled PR detected!"].
Proof.
  apply (labeled_attachment Sample.env
           (Sample.event "pull_request.labeled" [] false (Some "TUVIX") None)
           initial_world {| Label.name := "TUVIX" |}).
  - reflexivity.
  - reflexivity.
Defined.
